(** * healthnews: the health-news scraper, embedded and verified

    A shallow embedding of [health_news_scraper.py]: the text normalisers
    ([clean_filename], [clean_text]), the link classifier and the run
    loop of [fetch_health_news], the article extractor [scrape_article]
    and the writer [save_article].

    Python [str] values are sequences of Unicode code points, modelled
    as [list N].  What the script imports from outside the repository
    (the Unicode tables, [urljoin], HTTP, the HTML parser, the file
    system, the clock, the console and [os.path.join] of the platform)
    enters as parameters. *)

From Stdlib Require Import String Ascii.
From Stdlib Require DecimalNat DecimalString.
From Stdlib Require Import List NArith ZArith Bool Lia.
Import ListNotations.

Set Implicit Arguments.
Set Warnings "-register-all".

(* ================================================================== *)
(** * Python strings *)

Module PyStr.

Definition str := list N.

(** A literal: the code points of an ASCII string constant. *)
Definition lit (x : string) : str := map N_of_ascii (list_ascii_of_string x).

Definition str_eq_dec : forall a b : str, {a = b} + {a <> b} :=
  list_eq_dec N.eq_dec.

Definition str_eqb (a b : str) : bool :=
  if str_eq_dec a b then true else false.

(** [t.startswith(p)] *)
Fixpoint startswith (t p : str) {struct p} : bool :=
  match p, t with
  | [], _ => true
  | _ :: _, [] => false
  | a :: p', b :: t' => (a =? b)%N && startswith t' p'
  end.

(** [sub in t] *)
Fixpoint str_in (sub t : str) {struct t} : bool :=
  startswith t sub ||
  match t with
  | [] => false
  | _ :: t' => str_in sub t'
  end.

(** [t.count(c)] for a one-character needle. *)
Definition count_char (t : str) (c : N) : nat :=
  length (filter (N.eqb c) t).

(** [str.isspace] on one code point; the regular-expression class [\s]
    of a [str] pattern is the same set. *)
Definition isspace (c : N) : bool :=
  ((9 <=? c) && (c <=? 13) || (28 <=? c) && (c <=? 32) ||
   (c =? 133) || (c =? 160) || (c =? 5760) ||
   (8192 <=? c) && (c <=? 8202) || (c =? 8232) || (c =? 8233) ||
   (c =? 8239) || (c =? 8287) || (c =? 12288))%N.

Fixpoint lstrip (t : str) : str :=
  match t with
  | [] => []
  | c :: t' => if isspace c then lstrip t' else t
  end.

Fixpoint rstrip (t : str) : str :=
  match t with
  | [] => []
  | c :: t' =>
      match rstrip t' with
      | [] => if isspace c then [] else [c]
      | r => c :: r
      end
  end.

(** [t.strip()] *)
Definition strip (t : str) : str := rstrip (lstrip t).

(** [t.rstrip(chars)] *)
Fixpoint rstrip_chars (chars t : str) : str :=
  match t with
  | [] => []
  | c :: t' =>
      match rstrip_chars chars t' with
      | [] => if existsb (N.eqb c) chars then [] else [c]
      | r => c :: r
      end
  end.

(** [t.split(sep)] for a non-empty separator: [skip] counts the
    characters of a separator still to be passed over, [cur] is the
    piece being read, last character first. *)
Fixpoint split_go (sep : str) (skip : nat) (cur t : str) : list str :=
  match t with
  | [] => [rev cur]
  | c :: t' =>
      match skip with
      | S k => split_go sep k cur t'
      | O =>
          if startswith t sep
          then rev cur :: split_go sep (length sep - 1) [] t'
          else split_go sep 0 (c :: cur) t'
      end
  end.

Definition split (t sep : str) : list str := split_go sep 0 [] t.

(** [t.split()]: the maximal runs of non-whitespace. *)
Fixpoint split_ws (t : str) : list str :=
  match t with
  | [] => []
  | c :: t' =>
      if isspace c then split_ws t'
      else match t' with
           | [] => [[c]]
           | d :: _ =>
               if isspace d then [c] :: split_ws t'
               else match split_ws t' with
                    | w :: ws => (c :: w) :: ws
                    | [] => [[c]]
                    end
           end
  end.

(** [sep.join(parts)] *)
Fixpoint join (sep : str) (parts : list str) : str :=
  match parts with
  | [] => []
  | [w] => w
  | w :: ws => w ++ sep ++ join sep ws
  end.

(** [t[:m]] for a list [t] and an integer [m]: a negative bound counts
    from the end. *)
Definition slice_to {A} (t : list A) (m : Z) : list A :=
  if (0 <=? m)%Z then firstn (Z.to_nat m) t
  else firstn (length t - Z.to_nat (- m)) t.

(** [str(n)] for a non-negative integer. *)
Definition str_of_nat (n : nat) : str :=
  lit (DecimalString.NilZero.string_of_uint (Nat.to_uint n)).

(** The classes of the patterns of the script.  The patterns are only
    applied to text that went through [encode('ascii', 'ignore')], on
    which [\w] is [[A-Za-z0-9_]]. *)
Definition is_digit (c : N) : bool := ((48 <=? c) && (c <=? 57))%N.
Definition is_upper (c : N) : bool := ((65 <=? c) && (c <=? 90))%N.
Definition is_lower (c : N) : bool := ((97 <=? c) && (c <=? 122))%N.
Definition re_word (c : N) : bool :=
  is_digit c || is_upper c || is_lower c || (c =? 95)%N.
Definition re_space (c : N) : bool := isspace c.

(** [re.sub(r'\s+', rep, t)]: [in_run] tells that the previous character
    was whitespace already replaced. *)
Fixpoint sub_ws_go (rep : str) (in_run : bool) (t : str) : str :=
  match t with
  | [] => []
  | c :: t' =>
      if re_space c
      then (if in_run then sub_ws_go rep true t'
            else rep ++ sub_ws_go rep true t')
      else c :: sub_ws_go rep false t'
  end.

Definition re_sub_ws (rep t : str) : str := sub_ws_go rep false t.

(** [re.sub(r'[^...]', '', t)]: only the characters of the class stay. *)
Definition re_sub_delete_outside (keep : N -> bool) (t : str) : str :=
  filter keep t.

End PyStr.
Import PyStr.

(* ================================================================== *)
(** * Exceptions *)

(** The subclasses of [Exception] the calls of the script raise. *)
Inductive exn :=
| RequestException | HTTPError | ParserRejectedMarkup
| AttributeError | IndexError | OSError
| ValueError | UnicodeEncodeError.

Inductive result (A : Type) :=
| Ok (a : A)
| Raise (e : exn).
Arguments Ok {A} a.
Arguments Raise {A} e.

(** [str(e)] in the lines the handlers print.  The model keeps the class
    of an exception and not its text, and the name of the class stands
    for the text.  The texts of these exceptions are ASCII, but for what
    a server or the platform puts into the text of a failed request and
    for a quoted part of a malformed reference; the model takes those to
    be texts the console can encode. *)
Definition exn_name (e : exn) : str :=
  match e with
  | RequestException => lit "RequestException"
  | HTTPError => lit "HTTPError"
  | ParserRejectedMarkup => lit "ParserRejectedMarkup"
  | AttributeError => lit "AttributeError"
  | IndexError => lit "IndexError"
  | OSError => lit "OSError"
  | ValueError => lit "ValueError"
  | UnicodeEncodeError => lit "UnicodeEncodeError"
  end.

(** The library functions whose tables are not part of the script:
    [unicodedata.normalize('NFKD', _)], [str.lower], [repr] of a string
    and [urllib.parse.urljoin], which returns the joined address or
    raises (a [ValueError] on a malformed reference).  Of the tables only
    these facts are used: the normal form of the empty string is empty,
    and [lower] gives the empty string on the empty string and on no
    other. *)
Class Unicode := {
  normalize_NFKD : str -> str;
  lower : str -> str;
  repr : str -> str;
  urljoin : str -> str -> result str;
  normalize_NFKD_nil : normalize_NFKD [] = [];
  lower_nil : lower [] = [];
  lower_nonempty : forall t, lower t = [] -> t = []
}.

(** On ASCII text NFKD changes nothing and [lower] maps [A-Z] to [a-z];
    [urljoin] gives back a reference that is already an absolute URL
    with a host; [repr] puts a text without quotation mark, backslash
    and control character between two quotation marks.  This instance
    is the one used at concrete inputs, all of them such texts and
    absolute URLs. *)
Definition ascii_lower (c : N) : N := if is_upper c then (c + 32)%N else c.

Definition ascii_unicode : Unicode :=
  {| normalize_NFKD := fun t => t;
     lower := map ascii_lower;
     repr := fun t => lit "'" ++ t ++ lit "'";
     urljoin := fun _ href => Ok href;
     normalize_NFKD_nil := eq_refl;
     lower_nil := eq_refl;
     lower_nonempty := @map_eq_nil N N ascii_lower |}.

(* ================================================================== *)
(** * Text normaliser *)

Section Normalizer.
Context {U : Unicode}.

(** [unicodedata.normalize('NFKD', text)], then
    [.encode('ascii', 'ignore').decode('ascii')] *)
Definition ascii_fold (text : str) : str :=
  filter (fun c => (c <? 128)%N) (normalize_NFKD text).

(** The class [[\w\s-]]. *)
Definition filename_class (c : N) : bool :=
  re_word c || re_space c || (c =? 45)%N.

(** The class of [\w], [\s], full stop, comma, exclamation and question
    mark, both quotation marks and the hyphen. *)
Definition body_class (c : N) : bool :=
  re_word c || re_space c ||
  existsb (N.eqb c) (lit ".,!?'") || (c =? 34)%N || (c =? 45)%N.

Definition clean_filename (text : str) : str :=
  let text := ascii_fold text in
  let text := strip (re_sub_delete_outside filename_class text) in
  let text := re_sub_ws (lit "_") text in
  firstn 50 text.

(** [text] is [None] for Python's [None]. *)
Definition clean_text (text : option str) (for_body : bool) : str :=
  match text with
  | None => []
  | Some [] => []
  | Some text =>
      let text := ascii_fold text in
      let text := re_sub_delete_outside body_class text in
      let text := strip (re_sub_ws (lit " ") text) in
      if for_body then text else strip text
  end.

End Normalizer.

(** The characters [[A-Za-z0-9_-]]. *)
Definition filename_char (c : N) : bool := re_word c || (c =? 45)%N.

(** The normaliser as the specification words it: no trimming step. *)
Definition spec_normalizeForFilename {U : Unicode} (text : str) : str :=
  firstn 50 (re_sub_ws (lit "_")
               (re_sub_delete_outside filename_class (ascii_fold text))).

(* ================================================================== *)
(** * The log and the state of a run *)

Inductive level := INFO | WARNING | ERROR.

(** One constructor per [logging] call of the script. *)
Inductive event :=
| ScrapingArticle (url : str)
| SkippingNonEnglish (url : str)
| InsufficientContent (url : str) (found : nat)
| Scraped (title : str) (found : nat)
| ErrorScraping (url : str) (e : exn)
| FetchingFrom (name url : str)
| NoValidLinks (name : str) (rejected : list str)
| NoContentFound (link : str)
| ErrorFetching (name : str) (e : exn)
| SavedArticle (filename : str)
| ErrorSaving (filename : str) (e : exn).

(** [{"type": "heading", "level": _, "text": _}] and its two siblings. *)
Inductive ContentElement :=
| heading (lvl : str) (text : str)
| paragraph (text : str)
| quote (text : str).

Record Article := {
  a_source : str;
  a_url : str;
  a_title : str;
  a_elements : list ContentElement
}.

(** One call of [save_article]: its [timestamp] and [idx] arguments,
    the file name it built and whether the write went through. *)
Record save_call := {
  call_timestamp : str;
  call_idx : nat;
  call_filename : str;
  call_content : str;
  call_written : bool
}.

Record run_state := {
  all_articles : list Article;
  idx : nat;
  requests : nat;
  saves : list save_call;
  log : list (level * event)
}.

Definition M (A : Type) : Type := run_state -> result A * run_state.

Definition ret {A} (a : A) : M A := fun st => (Ok a, st).

Definition raise {A} (e : exn) : M A := fun st => (Raise e, st).

Definition bind {A B} (m : M A) (k : A -> M B) : M B :=
  fun st =>
    match m st with
    | (Ok a, st') => k a st'
    | (Raise e, st') => (Raise e, st')
    end.

Definition lift {A} (r : result A) : M A := fun st => (r, st).

(** [try: body  except Exception as e: handler e] *)
Definition try_except {A} (body : M A) (handler : exn -> M A) : M A :=
  fun st =>
    match body st with
    | (Ok a, st') => (Ok a, st')
    | (Raise e, st') => handler e st'
    end.

Declare Scope monad_scope.
Delimit Scope monad_scope with monad.
Notation "x <- m ;; k" := (bind m (fun x => k))
  (at level 61, m at next level, right associativity) : monad_scope.
Notation "m ;; k" := (bind m (fun _ => k))
  (at level 61, right associativity) : monad_scope.
Open Scope monad_scope.

(** A call of [logging]: one more entry.  The call does not raise: the
    module handles the errors of its handlers itself. *)
Definition logging (l : level) (ev : event) : M unit :=
  fun st =>
    (Ok tt,
     {| all_articles := all_articles st; idx := idx st;
        requests := requests st; saves := saves st;
        log := log st ++ [(l, ev)] |}).

(** [for x in l: body x] *)
Fixpoint for_each {A} (l : list A) (body : A -> M unit) : M unit :=
  match l with
  | [] => ret tt
  | x :: l' => body x ;; for_each l' body
  end.

(* ================================================================== *)
(** * Parsed documents *)

(** The tree BeautifulSoup builds: tags with their attributes and
    children, text nodes, and comments (which [.text] leaves out). *)
Inductive node :=
| Tag (name : str) (attrs : list (str * str)) (children : list node)
| NavigableString (s : str)
| Comment (s : str).

(** The descendants of a node in document order. *)
Fixpoint descendants (n : node) : list node :=
  match n with
  | Tag _ _ cs => flat_map (fun c => c :: descendants c) cs
  | _ => []
  end.

Definition tag_name (n : node) : option str :=
  match n with Tag name _ _ => Some name | _ => None end.

Definition has_name (name : str) (n : node) : bool :=
  match tag_name n with Some m => str_eqb m name | None => false end.

(** [tag.get(key)] *)
Fixpoint get (attrs : list (str * str)) (key : str) : option str :=
  match attrs with
  | [] => None
  | (k, v) :: rest => if str_eqb k key then Some v else get rest key
  end.

Definition tag_attrs (n : node) : list (str * str) :=
  match n with Tag _ a _ => a | _ => [] end.

(** [tag.text] *)
Fixpoint get_text (n : node) : str :=
  match n with
  | Tag _ _ cs => flat_map get_text cs
  | NavigableString s => s
  | Comment _ => []
  end.

(** [soup.find(name)] *)
Definition find (soup : node) (name : str) : option node :=
  List.find (has_name name) (descendants soup).

(** [soup.find_all(names)] *)
Definition find_all (soup : node) (names : list str) : list node :=
  filter (fun n => existsb (fun name => has_name name n) names)
         (descendants soup).

(** [soup.find_all("a", href=True)], each with its [a["href"]]. *)
Definition anchors_href (soup : node) : list str :=
  flat_map (fun n => if has_name (lit "a") n
                     then match get (tag_attrs n) (lit "href") with
                          | Some h => [h]
                          | None => []
                          end
                     else [])
           (descendants soup).

(* ================================================================== *)
(** * The world of one run *)

(** [posixpath.join] of two parts. *)
Definition posixpath_join (a b : str) : str :=
  if startswith b (lit "/") then b
  else match a with
       | [] => b
       | _ => if N.eqb (last a 0%N) 47 then a ++ b else a ++ lit "/" ++ b
       end.

Definition is_ascii (c : N) : bool := (c <? 128)%N.

(** Neither a slash, nor a backslash, nor a colon. *)
Definition plain_char (c : N) : bool :=
  negb (c =? 47)%N && negb (c =? 92)%N && negb (c =? 58)%N.

(** What the script gets from outside during a run.  [http_get n url] is
    the outcome of the [n]-th request of the run when it asks for [url]:
    [requests.get], [raise_for_status] and the parse, as a tree or as
    the exception one of them raised.  [set_order l] is the order in
    which [list(set(l))] enumerates.  [open_write n path content] is the
    outcome of the [n]-th attempt to create a file.

    [stdout_encodes c] tells whether the encoding of the console has the
    code point [c]; [print] raises on a text with a code point it has
    not.  ASCII is in every such encoding.

    [os_path_join] is [os.path.join] of the platform, [ntpath.join] on
    the Windows branch of the script and [posixpath.join] on the other;
    it is only called with [DESKTOP_PATH] in front, which on Windows is
    the constant [C:\Users\pharm\Desktop\HealthNewsLinks] and on the
    other branch the Desktop directory of the user followed by a slash
    and [HealthNewsLinks].  On both platforms the result ends like its
    second part from the last slash, backslash or colon of that part on,
    and is made of characters of the two parts and separators; a second
    part without slash, backslash and colon is put behind the directory
    and one separator.  A second part with one of the three can leave
    the directory: on Windows [D:evil] stands for a file on another
    drive.

    [DESKTOP_PATH] is printed when the script starts, before any run,
    and the script ends there if the console cannot encode it.  The
    timestamp is made of digits and an underscore. *)
Class World := {
  http_get : nat -> str -> result node;
  set_order : list str -> list str;
  open_write : nat -> str -> str -> result unit;
  run_timestamp : str;
  now_date : nat -> str;
  DESKTOP_PATH : str;
  stdout_encodes : N -> bool;
  os_path_join : str -> str -> str;
  stdout_ascii : forall c, is_ascii c = true -> stdout_encodes c = true;
  desktop_printable : forallb stdout_encodes DESKTOP_PATH = true;
  timestamp_ascii : forallb is_ascii run_timestamp = true;
  os_path_join_tail :
    forall b h t, b = h ++ t -> forallb plain_char t = true ->
                  exists p, os_path_join DESKTOP_PATH b = p ++ t;
  os_path_join_chars :
    forall b c, In c (os_path_join DESKTOP_PATH b) ->
                In c DESKTOP_PATH \/ In c b \/ c = 47%N \/ c = 92%N;
  os_path_join_plain :
    forall b, forallb plain_char b = true ->
              exists sep, (sep = 47%N \/ sep = 92%N) /\
                          os_path_join DESKTOP_PATH b =
                          DESKTOP_PATH ++ sep :: b
}.

(** The entries of [SOURCES]: a name and an address, ASCII literals of
    the script. *)
Record source := {
  name : str;
  url : str;
  source_ascii : forallb is_ascii (name ++ url) = true
}.

Definition entry (n u : string)
    (H : forallb is_ascii (lit n ++ lit u) = true) : source :=
  {| name := lit n; url := lit u; source_ascii := H |}.

Definition SOURCES : list source := [
  entry "Healthline" "https://www.healthline.com/health-news" eq_refl;
  entry "WebMD" "https://www.webmd.com/news" eq_refl;
  entry "BBC Health" "https://www.bbc.com/news/health" eq_refl;
  entry "The Guardian Health" "https://www.theguardian.com/society/health"
        eq_refl;
  entry "Irish Times Health" "https://www.irishtimes.com/health/" eq_refl;
  entry "Sky News Health" "https://news.sky.com/topic/health-10041" eq_refl;
  entry "The Local Sweden Health" "https://www.thelocal.se/tag/health"
        eq_refl;
  entry "ANSA English Health"
        "https://www.ansa.it/english/news/science_and_health/" eq_refl;
  entry "Medical News Today" "https://www.medicalnewstoday.com/news" eq_refl;
  entry "Mayo Clinic News" "https://newsnetwork.mayoclinic.org/discussion/"
        eq_refl
].

(** The console. *)
Section Console.
Context {W : World}.

Definition can_print (t : str) : bool := forallb stdout_encodes t.

(** [print(t)]: nothing happens to the state of the run; a text the
    console cannot encode raises. *)
Definition print_line (t : str) : M unit :=
  fun st =>
    if can_print t then (Ok tt, st) else (Raise UnicodeEncodeError, st).

End Console.

Definition No_Title : str := lit "No Title".

(* ================================================================== *)
(** * Article extractor *)

Section Extractor.
Context {U : Unicode} {W : World}.

(** One request: the answer of the world, and one more request made. *)
Definition fetch (u : str) : M node :=
  fun st =>
    (http_get (requests st) u,
     {| all_articles := all_articles st; idx := idx st;
        requests := S (requests st); saves := saves st;
        log := log st |}).

(** [lang and not lang.startswith('en')] *)
Definition language_gate (lang : str) : bool :=
  negb (str_eqb lang []) && negb (startswith lang (lit "en")).

(** [soup.find("h1") or soup.find("title") or soup.find("h2")]: a tag
    is always true, so the first one found is taken. *)
Definition find_title_elem (soup : node) : option node :=
  match find soup (lit "h1") with
  | Some e => Some e
  | None =>
      match find soup (lit "title") with
      | Some e => Some e
      | None => find soup (lit "h2")
      end
  end.

Definition extract_title (soup : node) : str :=
  match find_title_elem soup with
  | Some e => clean_text (Some (get_text e)) false
  | None => No_Title
  end.

(** The function given as [class_]: [x and any(k in x.lower() for k in ...)]. *)
Definition class_hint (x : option str) : bool :=
  match x with
  | None => false
  | Some [] => false
  | Some x =>
      existsb (fun k => str_in k (lower x))
              [lit "article"; lit "content"; lit "news"; lit "body"]
  end.

(** How the parser's matcher applies a function to the [class]
    attribute: the attribute holds the list of its whitespace-separated
    values; each value is tried, then all of them joined by spaces. *)
Definition class_matches (n : node) : bool :=
  match get (tag_attrs n) (lit "class") with
  | None => class_hint None
  | Some v =>
      let values := split_ws v in
      existsb (fun x => class_hint (Some x)) values ||
      class_hint (Some (join (lit " ") values))
  end.

Definition find_content (soup : node) : node :=
  match find soup (lit "article") with
  | Some c => c
  | None =>
      match List.find (fun n => has_name (lit "div") n && class_matches n)
                      (descendants soup) with
      | Some c => c
      | None =>
          match find soup (lit "main") with
          | Some c => c
          | None => soup
          end
      end
  end.

(** The body of the loop over [content.find_all([...])]: what one
    element appends to [elements]. *)
Definition element_of (elem : node) : list ContentElement :=
  match tag_name elem with
  | None => []
  | Some nm =>
      if str_eqb nm (lit "h2") || str_eqb nm (lit "h3") then
        let text := clean_text (Some (get_text elem)) false in
        if negb (str_eqb text []) && (10 <? length text)
        then [heading nm text] else []
      else if str_eqb nm (lit "p") then
        let text := clean_text (Some (get_text elem)) true in
        if negb (str_eqb text []) && (20 <? length text)
        then [paragraph text] else []
      else if str_eqb nm (lit "blockquote") then
        let text := clean_text (Some (get_text elem)) true in
        if negb (str_eqb text []) && (20 <? length text)
        then [quote text] else []
      else []
  end.

(** The element walk: the qualifying elements of the page, in document
    order. *)
Definition walk (soup : node) : list ContentElement :=
  flat_map element_of
    (find_all (find_content soup)
       [lit "h2"; lit "h3"; lit "p"; lit "blockquote"]).

(** [soup.find('html').get('lang', '').lower()]; without an [html]
    element [find] gives [None] and the attribute access raises. *)
Definition read_lang (soup : node) : result str :=
  match find soup (lit "html") with
  | None => Raise AttributeError
  | Some html =>
      Ok (lower (match get (tag_attrs html) (lit "lang") with
                 | Some v => v
                 | None => []
                 end))
  end.

(** The [try] block of [scrape_article]. *)
Definition scrape_article_try (u : str) : M (str * list ContentElement) :=
  soup <- fetch u ;;
  lang <- lift (read_lang soup) ;;
  if language_gate lang then
    logging WARNING (SkippingNonEnglish u) ;;
    print_line (lit "Skipping non-English page: " ++ u) ;;
    ret (No_Title, [])
  else
    let title := extract_title soup in
    let elements := walk soup in
    if (length elements <? 2)%nat then
      logging WARNING (InsufficientContent u (length elements)) ;;
      print_line (lit "Insufficient content for " ++ u ++ lit ": " ++
                  str_of_nat (length elements) ++ lit " elements found") ;;
      ret (title, [])
    else
      logging INFO (Scraped title (length elements)) ;;
      print_line (lit "Scraped: Title='" ++ title ++ lit "', Elements=" ++
                  str_of_nat (length elements)) ;;
      ret (title, elements).

(** The first log line and the first [print] come before the [try]. *)
Definition scrape_article (u source_name : str)
  : M (str * list ContentElement) :=
  logging INFO (ScrapingArticle u) ;;
  print_line (lit "Scraping article: " ++ u) ;;
  try_except (scrape_article_try u)
    (fun e =>
       logging ERROR (ErrorScraping u e) ;;
       print_line (lit "Error scraping " ++ u ++ lit ": " ++ exn_name e) ;;
       ret (No_Title, [])).

End Extractor.

(* ================================================================== *)
(** * Link classifier *)

Section Classifier.
Context {U : Unicode}.

Definition blocklist : list str := [
  lit "login"; lit "signup"; lit "advert"; lit "privacy"; lit "archive";
  lit "category"; lit "tag"; lit "account"; lit "settings"; lit "subscribe";
  lit "newsletter"; lit "visa"; lit "insurance"; lit "podcast"; lit "parsi";
  lit "video"; lit "gallery"; lit "comment"; lit "default.htm"; lit "page=";
  lit "index"
].

(** [u.rstrip("/").split("//")[1].split("/")[0]] *)
Definition listing_host (u : str) : result str :=
  match nth_error (split (rstrip_chars (lit "/") u) (lit "//")) 1 with
  | None => Raise IndexError
  | Some rest =>
      match split rest (lit "/") with
      | h :: _ => Ok h
      | [] => Raise IndexError
      end
  end.

Definition blocklisted (href : str) : bool :=
  existsb (fun exclude => str_in exclude (lower href)) blocklist.

(** The outer condition on a resolved href; the host of the listing is
    only computed when the first conjunct holds. *)
Definition passes_filter (src : source) (href : str) : result bool :=
  if startswith href (lit "http") then
    match listing_host (url src) with
    | Raise e => Raise e
    | Ok host => Ok (str_in host href && negb (blocklisted href))
    end
  else Ok false.

(** The source-specific filters. *)
Definition allow_rule (src : source) (href : str) : bool :=
  if str_eqb (name src) (lit "BBC Health") then
    str_in (lit "health-") (lower href) && (4 <=? count_char href 47)%nat
  else if str_eqb (name src) (lit "WebMD") then
    str_in (lit "/news/") (lower href) && (5 <=? count_char href 47)%nat
  else if str_eqb (name src) (lit "The Guardian Health") then
    str_in (lit "/article/") (lower href) || str_in (lit "/202") (lower href)
  else
    existsb (fun indicator => str_in indicator (lower href))
            [lit "article"; lit "news/"; lit "story"; lit "202"].

(** The loop over the anchors: [(article_links, rejected_links)], each
    in the order of the page; the first href whose resolution or filter
    raises ends the loop with its exception. *)
Fixpoint classify_links (src : source) (hrefs : list str)
  : result (list str * list str) :=
  match hrefs with
  | [] => Ok ([], [])
  | h :: rest =>
      match urljoin (url src) h with
      | Raise e => Raise e
      | Ok href =>
          match passes_filter src href with
          | Raise e => Raise e
          | Ok pass =>
              match classify_links src rest with
              | Raise e => Raise e
              | Ok (article_links, rejected_links) =>
                  if pass then
                    if allow_rule src href
                    then Ok (href :: article_links, rejected_links)
                    else Ok (article_links, href :: rejected_links)
                  else Ok (article_links, rejected_links)
              end
          end
      end
  end.

(** [list(set(article_links))[:max_articles_per_source]], for the order
    [order] in which the set enumerates. *)
Definition cap_links (order : list str -> list str)
    (article_links : list str) (max_articles_per_source : Z) : list str :=
  slice_to (order article_links) max_articles_per_source.

(** What Python guarantees of [out = list(set(l))]: no element twice,
    and the elements of [l]. *)
Definition mem (x : str) (l : list str) : bool := existsb (str_eqb x) l.

Fixpoint no_repeat (l : list str) : bool :=
  match l with
  | [] => true
  | x :: l' => negb (mem x l') && no_repeat l'
  end.

Definition is_list_of_set (l out : list str) : bool :=
  no_repeat out &&
  forallb (fun x => mem x l) out &&
  forallb (fun x => mem x out) l.

End Classifier.

(** The host of an absolute URL, as the claim about the same-site filter
    means it: what stands between the [//] after the scheme and the next
    [/], [?] or [#]. *)
Fixpoint until_delim (t : str) : str :=
  match t with
  | [] => []
  | c :: t' =>
      if existsb (N.eqb c) (lit "/?#") then [] else c :: until_delim t'
  end.

Fixpoint spec_url_host (u : str) : str :=
  match u with
  | [] => []
  | c :: u' =>
      if startswith u (lit "//") then until_delim (tl u')
      else spec_url_host u'
  end.

(* ================================================================== *)
(** * Article writer *)

Section Writer.
Context {U : Unicode} {W : World}.

(** [os.path.join(DESKTOP_PATH, f"{source}_{clean_title}_{timestamp}_{idx}.txt")] *)
Definition txt_filename (title source_name timestamp : str) (i : nat) : str :=
  os_path_join DESKTOP_PATH
    (source_name ++ lit "_" ++ clean_filename title ++ lit "_" ++
     timestamp ++ lit "_" ++ str_of_nat i ++ lit ".txt").

Definition nl : str := [10%N].

Definition render_element (elem : ContentElement) : str :=
  match elem with
  | heading lvl text =>
      (if str_eqb lvl (lit "h2") then lit "#" else lit "##") ++
      lit " " ++ text ++ nl ++ nl
  | paragraph text => text ++ nl ++ nl
  | quote text => lit "> " ++ text ++ nl ++ nl
  end.

Definition text_content (title : str) (elements : list ContentElement)
    (source_name u date : str) : str :=
  lit "Source: " ++ source_name ++ nl ++
  lit "URL: " ++ u ++ nl ++
  lit "Date: " ++ date ++ nl ++
  lit "Title: " ++ title ++ nl ++ nl ++
  flat_map render_element elements.

(** The call is on record from its start, as not yet written. *)
Definition note_call (c : save_call) : M unit :=
  fun st =>
    (Ok tt,
     {| all_articles := all_articles st; idx := idx st;
        requests := requests st; saves := saves st ++ [c];
        log := log st |}).

Definition written (c : save_call) : save_call :=
  {| call_timestamp := call_timestamp c; call_idx := call_idx c;
     call_filename := call_filename c; call_content := call_content c;
     call_written := true |}.

Fixpoint mark_written (l : list save_call) : list save_call :=
  match l with
  | [] => []
  | [c] => [written c]
  | c :: l' => c :: mark_written l'
  end.

(** [with open(txt_filename, "w", ...) as f: f.write(text_content)]: the
    [n]-th attempt of the run; when it goes through, the call on record
    is marked. *)
Definition write_file (n : nat) (file content : str) : M unit :=
  fun st =>
    match open_write n file content with
    | Ok _ =>
        (Ok tt,
         {| all_articles := all_articles st; idx := idx st;
            requests := requests st; saves := mark_written (saves st);
            log := log st |})
    | Raise e => (Raise e, st)
    end.

(** [save_article]: what its [try] block raises is logged and printed
    by its handler. *)
Definition save_article (title : str) (elements : list ContentElement)
    (source_name u timestamp : str) (i : nat) : M unit :=
  fun st =>
    let n := length (saves st) in
    let file := txt_filename title source_name timestamp i in
    let content := text_content title elements source_name u (now_date n) in
    (note_call {| call_timestamp := timestamp; call_idx := i;
                  call_filename := file; call_content := content;
                  call_written := false |} ;;
     try_except
       (print_line (lit "Generating text file: " ++ file) ;;
        write_file n file content ;;
        logging INFO (SavedArticle file) ;;
        print_line (lit "Saved article to " ++ file))
       (fun e =>
          logging ERROR (ErrorSaving file e) ;;
          print_line (lit "Error saving article " ++ file ++ lit ": " ++
                      exn_name e))) st.

End Writer.

(* ================================================================== *)
(** * Run orchestrator *)

Section Orchestrator.
Context {U : Unicode} {W : World}.

(** [all_articles.append(article)] *)
Definition append_article (a : Article) : M unit :=
  fun st =>
    (Ok tt,
     {| all_articles := all_articles st ++ [a]; idx := idx st;
        requests := requests st; saves := saves st; log := log st |}).

(** [idx] as the loop reads it. *)
Definition read_idx : M nat := fun st => (Ok (idx st), st).

(** [idx += 1] *)
Definition incr_idx : M unit :=
  fun st =>
    (Ok tt,
     {| all_articles := all_articles st; idx := S (idx st);
        requests := requests st; saves := saves st; log := log st |}).

(** The body of the loop over [article_links]. *)
Definition process_link (src : source) (timestamp link : str) : M unit :=
  print_line (lit "Processing article: " ++ link) ;;
  r <- scrape_article link (name src) ;;
  let '(title, elements) := r in
  match elements with
  | [] =>
      logging WARNING (NoContentFound link) ;;
      print_line (lit "No content found for " ++ link)
  | _ :: _ =>
      append_article {| a_source := name src; a_url := link;
                        a_title := title; a_elements := elements |} ;;
      i <- read_idx ;;
      save_article title elements (name src) link timestamp i ;;
      incr_idx
  end.

(** [str(l)] of a list of strings. *)
Definition repr_list (l : list str) : str :=
  lit "[" ++ join (lit ", ") (map repr l) ++ lit "]".

(** The [try] block of the loop over [SOURCES]. *)
Definition process_source_try (max_articles_per_source : Z)
    (timestamp : str) (src : source) : M unit :=
  soup <- fetch (url src) ;;
  links <- lift (classify_links src (anchors_href soup)) ;;
  let '(article_links, rejected_links) := links in
  let article_links :=
    cap_links set_order article_links max_articles_per_source in
  match article_links with
  | [] =>
      logging WARNING (NoValidLinks (name src) (firstn 5 rejected_links)) ;;
      print_line (lit "No valid article links found for " ++ name src ++
                  lit ". Rejected: " ++ repr_list (firstn 5 rejected_links))
  | _ :: _ => for_each article_links (process_link src timestamp)
  end.

(** One source: the announcement comes before the [try]. *)
Definition process_source (max_articles_per_source : Z)
    (timestamp : str) (src : source) : M unit :=
  logging INFO (FetchingFrom (name src) (url src)) ;;
  print_line (lit "Fetching from " ++ name src ++ lit " (" ++ url src ++
              lit ")...") ;;
  try_except (process_source_try max_articles_per_source timestamp src)
    (fun e =>
       logging ERROR (ErrorFetching (name src) e) ;;
       print_line (lit "Error fetching from " ++ name src ++ lit ": " ++
                   exn_name e)).

Definition initial_state : run_state :=
  {| all_articles := []; idx := 0; requests := 0; saves := []; log := [] |}.

(** [fetch_health_news], over a list of sources; the script runs it on
    [SOURCES]. *)
Definition fetch_from (sources : list source)
    (max_articles_per_source : Z) : result (list Article) * run_state :=
  let timestamp := run_timestamp in
  match for_each sources (process_source max_articles_per_source timestamp)
                 initial_state with
  | (Ok _, st) => (Ok (all_articles st), st)
  | (Raise e, st) => (Raise e, st)
  end.

Definition fetch_health_news (max_articles_per_source : Z)
  : result (list Article) * run_state :=
  fetch_from SOURCES max_articles_per_source.

End Orchestrator.

(* ================================================================== *)
(** * Vocabulary of the statements *)

(** The state after one more request and the log entries [entries]. *)
Definition after_request (st : run_state) (entries : list (level * event))
  : run_state :=
  {| all_articles := all_articles st; idx := idx st;
     requests := S (requests st); saves := saves st;
     log := log st ++ entries |}.

(** The language attribute of the root [html] element, when there is
    one. *)
Definition declared_lang (soup : node) : option str :=
  match find soup (lit "html") with
  | Some html => get (tag_attrs html) (lit "lang")
  | None => None
  end.

(** The page gets as far as the element walk: it has a root element and
    the language gate lets it through. *)
Definition walk_reached {U : Unicode} (soup : node) : bool :=
  match read_lang soup with
  | Ok lang => negb (language_gate lang)
  | Raise _ => false
  end.

(** What [scrape_article] returns and logs after its first log line, by
    the outcome of the request, once its address went through the
    [print] in front of the [try]. *)
Definition scrape_outcome {U : Unicode} (u : str) (o : result node)
  : (str * list ContentElement) * list (level * event) :=
  match o with
  | Raise e => ((No_Title, []), [(ERROR, ErrorScraping u e)])
  | Ok soup =>
      match read_lang soup with
      | Raise e => ((No_Title, []), [(ERROR, ErrorScraping u e)])
      | Ok lang =>
          if language_gate lang
          then ((No_Title, []), [(WARNING, SkippingNonEnglish u)])
          else if length (walk soup) <? 2
          then ((extract_title soup, []),
                [(WARNING, InsufficientContent u (length (walk soup)))])
          else ((extract_title soup, walk soup),
                [(INFO, Scraped (extract_title soup) (length (walk soup)))])
      end
  end.

(* ================================================================== *)
(** * Concrete pages and worlds *)

Module Examples.

Definition doc (children : list node) : node :=
  Tag (lit "[document]") [] children.

Definition el (nm : string) (text : string) : node :=
  Tag (lit nm) [] [NavigableString (lit text)].

Definition para1 : node := el "p" "This paragraph is long enough to count.".
Definition para2 : node := el "p" "Another paragraph, also long enough.".

(** An article whose [h1] is there and empty. *)
Definition page_empty_h1 : node :=
  doc [Tag (lit "html") [(lit "lang", lit "en")]
         [Tag (lit "h1") [] []; para1; para2]].

(** A page that declares French. *)
Definition page_french : node :=
  doc [Tag (lit "html") [(lit "lang", lit "fr")]
         [el "h1" "Un titre"; para1; para2]].

(** A page that declares no language. *)
Definition page_no_lang : node :=
  doc [Tag (lit "html") [] [el "h1" "A title"; para1; para2]].

(** One and two qualifying elements. *)
Definition page_one : node :=
  doc [Tag (lit "html") [] [el "h1" "A title"; para1; el "p" "Too short."]].

Definition page_two : node :=
  doc [Tag (lit "html") [] [el "h1" "A title"; para1; para2]].


Fixpoint dedup (l : list str) : list str :=
  match l with
  | [] => []
  | x :: l' => if mem x l' then dedup l' else x :: dedup l'
  end.

Definition desktop : str := lit "/home/pharm/Desktop/HealthNewsLinks".

(** [posixpath.join] has the three properties a world asks of
    [os_path_join]. *)
Definition posixpath_join_tail (d b h t : str) :
  b = h ++ t -> forallb plain_char t = true ->
  exists p, posixpath_join d b = p ++ t.
Proof.
  intros -> _. unfold posixpath_join.
  destruct (startswith (h ++ t) (lit "/")); [now exists h|].
  destruct d as [|x d]; [now exists h|].
  destruct (N.eqb _ _).
  - exists ((x :: d) ++ h). now rewrite app_assoc.
  - exists ((x :: d) ++ lit "/" ++ h). now rewrite <- !app_assoc.
Qed.

Definition posixpath_join_chars (d b : str) (c : N) :
  In c (posixpath_join d b) ->
  In c d \/ In c b \/ c = 47%N \/ c = 92%N.
Proof.
  unfold posixpath_join.
  destruct (startswith b (lit "/")); [auto|].
  destruct d as [|x d]; [auto|].
  destruct (N.eqb _ _); intros H; apply in_app_or in H;
    destruct H as [H|H]; auto.
  apply in_app_or in H. destruct H as [[H|[]]|H]; auto.
Qed.

Definition posixpath_join_plain (d b : str) :
  d <> [] -> last d 0%N <> 47%N -> forallb plain_char b = true ->
  exists sep, (sep = 47%N \/ sep = 92%N) /\
              posixpath_join d b = d ++ sep :: b.
Proof.
  intros Hd Hl Hb. exists 47%N. split; [now left|].
  unfold posixpath_join.
  assert (Hs : startswith b (lit "/") = false).
  { destruct b as [|c b]; [reflexivity|].
    simpl in Hb. apply andb_true_iff in Hb. destruct Hb as [Hc _].
    unfold plain_char in Hc. apply andb_true_iff in Hc.
    destruct Hc as [Hc _]. apply andb_true_iff in Hc.
    destruct Hc as [Hc _]. apply negb_true_iff in Hc.
    change (startswith (c :: b) (lit "/")) with ((47 =? c)%N && true).
    rewrite N.eqb_sym, Hc. reflexivity. }
  rewrite Hs. destruct d as [|x d]; [contradiction|].
  destruct (N.eqb_spec (last (x :: d) 0%N) 47); [contradiction|reflexivity].
Qed.

(** A world on the POSIX branch, with the console [encodes] and the
    answers [get]; every second write fails. *)
Definition posix_world (encodes : N -> bool)
    (Hascii : forall c, is_ascii c = true -> encodes c = true)
    (get : nat -> str -> result node) : World.
Proof.
  refine
    {| http_get := get;
       set_order := dedup;
       open_write := fun n _ _ =>
                       if Nat.even n then Ok tt else Raise OSError;
       run_timestamp := lit "20240101_120000";
       now_date := fun _ => lit "2024-01-01 12:00:00";
       DESKTOP_PATH := desktop;
       stdout_encodes := encodes;
       os_path_join := posixpath_join;
       stdout_ascii := Hascii;
       desktop_printable := _;
       timestamp_ascii := eq_refl;
       os_path_join_tail := posixpath_join_tail desktop;
       os_path_join_chars := posixpath_join_chars desktop;
       os_path_join_plain := fun b => @posixpath_join_plain desktop b _ _ |}.
  - apply forallb_forall. intros c Hc. apply Hascii.
    assert (H : forallb is_ascii desktop = true) by reflexivity.
    rewrite forallb_forall in H. now apply H.
  - vm_compute. discriminate.
  - vm_compute. discriminate.
Defined.

(** A console that encodes every code point. *)
Definition any_console : N -> bool := fun _ => true.

(** A world in which every request is answered by [answer]. *)
Definition world_of (answer : result node) : World :=
  posix_world any_console (fun _ _ => eq_refl) (fun _ _ => answer).

(** The same behind a console that has ASCII only. *)
Definition ascii_world_of (answer : result node) : World :=
  posix_world is_ascii (fun _ H => H) (fun _ _ => answer).

(** An address with a letter outside ASCII. *)
Definition accented_url : str :=
  lit "https://www.healthline.com/health-news/caf" ++ [233%N].

(** The address and the source name the extractor is called with. *)
Definition article_url : str :=
  lit "https://www.healthline.com/health-news/a-story-one".
Definition source_label : str := lit "Healthline".

Definition healthline : source :=
  entry "Healthline" "https://www.healthline.com/health-news" eq_refl.

(** An address on another host that carries the host of the listing in
    its path. *)
Definition foreign_link : str :=
  lit "https://evil.example/news/www.healthline.com".

(** A listing of ten links: three pass the default rule, seven are on
    the blocklist. *)
Definition ten_links : list str := [
  lit "https://www.healthline.com/health-news/a-story-one";
  lit "https://www.healthline.com/login";
  lit "https://www.healthline.com/health-news/a-story-two";
  lit "https://www.healthline.com/signup";
  lit "https://www.healthline.com/privacy-policy";
  lit "https://www.healthline.com/health-news/a-story-three";
  lit "https://www.healthline.com/newsletter";
  lit "https://www.healthline.com/video/news/clip";
  lit "https://www.healthline.com/podcast/news/show";
  lit "https://www.healthline.com/account"
].

Definition three_links : list str := [
  lit "https://www.healthline.com/health-news/a-story-one";
  lit "https://www.healthline.com/health-news/a-story-two";
  lit "https://www.healthline.com/health-news/a-story-three"
].

(** The listing of Healthline with the three accepted links, and a
    world that serves it at the listing's address and a two-paragraph
    article everywhere else; every second write fails. *)
Definition listing_page : node :=
  doc [Tag (lit "html") []
         (map (fun h => Tag (lit "a") [(lit "href", h)] []) three_links)].

Definition world_run : World :=
  posix_world any_console (fun _ _ => eq_refl)
    (fun _ u =>
       if str_eqb u (url healthline) then Ok listing_page else Ok page_two).

End Examples.

(* ================================================================== *)
(** * Vocabulary of the classifier statements *)

(** The hrefs of a page resolved against the address of the source,
    those that resolve. *)
Definition resolved {U : Unicode} (src : source) (hrefs : list str)
  : list str :=
  flat_map (fun h => match urljoin (url src) h with
                     | Ok href => [href]
                     | Raise _ => []
                     end) hrefs.

(** A resolved href ends up in [article_links]. *)
Definition accepts {U : Unicode} (src : source) (href : str) : bool :=
  match passes_filter src href with
  | Ok true => allow_rule src href
  | _ => false
  end.

(** The source falls through to the last branch of the source-specific
    filters. *)
Definition uses_default_rule (src : source) : bool :=
  negb (str_eqb (name src) (lit "BBC Health")) &&
  negb (str_eqb (name src) (lit "WebMD")) &&
  negb (str_eqb (name src) (lit "The Guardian Health")).

(* ================================================================== *)
(** * Vocabulary of the run statements *)

(** The file name of a call ends in its index: [..._<idx>.txt]. *)
Definition indexed_name (c : save_call) : Prop :=
  exists prefix,
    call_filename c =
    prefix ++ lit "_" ++ str_of_nat (call_idx c) ++ lit ".txt".

(** What holds of the calls of [save_article] between two links of a
    run started at [ts]: the calls so far carry the indices
    [0 .. idx - 1] in this order, the timestamp of the run, and a file
    name that ends in their index. *)
Definition run_invariant (ts : str) (st : run_state) : Prop :=
  map call_idx (saves st) = seq 0 (idx st) /\
  Forall (fun c => call_timestamp c = ts /\ indexed_name c) (saves st).

(** A command keeps a property of the state, whether it returns or
    raises. *)
Definition preserves {A} (P : run_state -> Prop) (m : M A) : Prop :=
  forall st, P st -> P (snd (m st)).

(* ================================================================== *)
(** * Vocabulary of the further statements *)

(** The characters a cleaned text can hold: [[A-Za-z0-9_]], the space,
    full stop, comma, exclamation and question mark, both quotation
    marks and the hyphen. *)
Definition text_char (c : N) : bool :=
  re_word c || existsb (N.eqb c) (lit " .,!?'") || (c =? 34)%N || (c =? 45)%N.

(** The thresholds of the element walk: a heading is an [h2] or an [h3]
    with more than 10 characters, a paragraph or a quote has more than
    20. *)
Definition element_ok (e : ContentElement) : bool :=
  match e with
  | heading lvl text =>
      (str_eqb lvl (lit "h2") || str_eqb lvl (lit "h3")) &&
      (10 <? length text)
  | paragraph text => 20 <? length text
  | quote text => 20 <? length text
  end.

Definition element_text (e : ContentElement) : str :=
  match e with
  | heading _ text => text
  | paragraph text => text
  | quote text => text
  end.

(** The name of the file without its directory, as [save_article]
    composes it. *)
Definition base_name {U : Unicode} (title source_name timestamp : str)
    (i : nat) : str :=
  source_name ++ lit "_" ++ clean_filename title ++ lit "_" ++
  timestamp ++ lit "_" ++ str_of_nat i ++ lit ".txt".

(** An article and the call of [save_article] made for it. *)
Definition saved_as {U : Unicode} {W : World} (ts : str)
    (a : Article) (c : save_call) : Prop :=
  call_timestamp c = ts /\
  call_filename c = txt_filename (a_title a) (a_source a) ts (call_idx c) /\
  exists date,
    call_content c =
    text_content (a_title a) (a_elements a) (a_source a) (a_url a) date.

(** What [main] prints and logs once the run is over. *)
Inductive report :=
| No_articles_found
| Fetched_and_saved (n : nat).

(** [main]: the run with the cap given on the command line, then the
    report; its first log line is left out.  The lines it prints are
    ASCII texts, which every console encodes. *)
Definition main {U : Unicode} {W : World} (max_articles : Z)
  : result report * run_state :=
  match fetch_health_news max_articles with
  | (Ok [], st) => (Ok No_articles_found, st)
  | (Ok (a :: articles), st) =>
      (Ok (Fetched_and_saved (length (a :: articles))), st)
  | (Raise e, st) => (Raise e, st)
  end.

(** What one href of the page makes the loop over the anchors raise:
    the exception of its resolution or, when it resolves, that of the
    outer filter. *)
Definition href_raises {U : Unicode} (src : source) (h : str)
  : option exn :=
  match urljoin (url src) h with
  | Raise e => Some e
  | Ok href =>
      match passes_filter src href with
      | Raise e => Some e
      | Ok _ => None
      end
  end.

(** A resolved href ends up in [rejected_links]. *)
Definition rejects {U : Unicode} (src : source) (href : str) : bool :=
  match passes_filter src href with
  | Ok true => negb (allow_rule src href)
  | _ => false
  end.

(** An article as the run collects it: from a source of the run, with a
    cleaned title and at least two elements, each over its threshold. *)
Definition article_ok {U : Unicode} (known : str -> Prop) (a : Article)
  : Prop :=
  known (a_source a) /\
  Forall (fun c => text_char c = true) (a_title a) /\
  2 <= length (a_elements a) /\
  Forall (fun e => element_ok e = true /\
                   Forall (fun c => text_char c = true) (element_text e))
         (a_elements a).

(** What holds of the articles collected so far and the calls of
    [save_article] made so far: they go in pairs, in order, and every
    article is well formed. *)
Definition books_invariant {U : Unicode} {W : World} (ts : str)
    (known : str -> Prop) (st : run_state) : Prop :=
  Forall2 (saved_as ts) (all_articles st) (saves st) /\
  Forall (article_ok known) (all_articles st).

(** Further concrete inputs. *)
Module MoreExamples.

(** A source whose address has no [//], hence no host to cut out. *)
Definition hostless : source := entry "Local copy" "listing.html" eq_refl.

Definition bbc : source :=
  entry "BBC Health" "https://www.bbc.com/news/health" eq_refl.

(** Tables as [ascii_unicode] has them, but for [urljoin], which here
    refuses a reference with an opening square bracket and no closing
    one, as the library does for the host of [http://[::1]. *)
Definition bracket_unicode : Unicode :=
  {| normalize_NFKD := fun t => t;
     lower := map ascii_lower;
     repr := fun t => lit "'" ++ t ++ lit "'";
     urljoin := fun _ href =>
                  if str_in (lit "[") href && negb (str_in (lit "]") href)
                  then Raise ValueError else Ok href;
     normalize_NFKD_nil := eq_refl;
     lower_nil := eq_refl;
     lower_nonempty := @map_eq_nil N N ascii_lower |}.

Definition bbc_links : list str := [
  lit "https://www.bbc.com/news/health-12345678";
  lit "https://www.bbc.com/news/world-12345678";
  lit "https://www.bbc.com/sport"
].

End MoreExamples.

(* ================================================================== *)
(** * Properties of the string primitives *)

Unset Implicit Arguments.

Section StringFacts.

Lemma lstrip_idem (t : str) : lstrip (lstrip t) = lstrip t.
Proof.
  induction t as [|c t IH]; simpl; auto.
  destruct (isspace c) eqn:E; auto.
  simpl. now rewrite E.
Qed.

Lemma rstrip_idem (t : str) : rstrip (rstrip t) = rstrip t.
Proof.
  induction t as [|c t IH]; simpl; auto.
  destruct (rstrip t) as [|d r] eqn:R.
  - destruct (isspace c) eqn:E; simpl; auto. now rewrite E.
  - change (rstrip (c :: d :: r)) with
      (match rstrip (d :: r) with
       | [] => if isspace c then [] else [c]
       | x :: r' => c :: x :: r'
       end).
    now rewrite IH.
Qed.

Lemma lstrip_nonspace (c : N) (t : str) :
  isspace c = false -> lstrip (c :: t) = c :: t.
Proof. intros E. simpl. now rewrite E. Qed.

(** A non-empty [rstrip] starts like the text. *)
Lemma rstrip_head (c : N) (t : str) :
  rstrip (c :: t) = [] \/ exists r, rstrip (c :: t) = c :: r.
Proof.
  simpl. destruct (rstrip t); [destruct (isspace c)|]; eauto.
Qed.

Lemma lstrip_rstrip (t : str) : lstrip (rstrip t) = rstrip (lstrip t).
Proof.
  induction t as [|c t IH]; auto.
  destruct (isspace c) eqn:E.
  - change (lstrip (c :: t)) with (if isspace c then lstrip t else c :: t).
    rewrite E, <- IH. simpl.
    destruct (rstrip t) eqn:R; rewrite ?E; simpl; rewrite ?E; auto.
  - rewrite (lstrip_nonspace c t E).
    destruct (rstrip_head c t) as [H|[r H]]; rewrite H; auto.
    now apply lstrip_nonspace.
Qed.

Lemma strip_idem (t : str) : strip (strip t) = strip t.
Proof.
  unfold strip.
  now rewrite <- lstrip_rstrip, rstrip_idem, lstrip_rstrip, lstrip_idem.
Qed.

Lemma rstrip_of_strip (t : str) : rstrip (strip t) = strip t.
Proof. unfold strip. apply rstrip_idem. Qed.

(** [strip] leaves no whitespace in front. *)
Lemma strip_head (t : str) :
  match strip t with [] => True | c :: _ => isspace c = false end.
Proof.
  unfold strip. rewrite <- lstrip_rstrip.
  induction (rstrip t) as [|c r IH]; simpl; auto.
  destruct (isspace c) eqn:E; auto.
Qed.

Lemma Forall_lstrip (P : N -> Prop) (t : str) :
  Forall P t -> Forall P (lstrip t).
Proof.
  induction 1 as [|c t Hc Ht IH]; simpl; auto.
  destruct (isspace c); auto.
Qed.

Lemma Forall_rstrip (P : N -> Prop) (t : str) :
  Forall P t -> Forall P (rstrip t).
Proof.
  induction 1 as [|c t Hc Ht IH]; simpl; auto.
  destruct (rstrip t); [destruct (isspace c)|]; auto.
Qed.

Lemma Forall_strip (P : N -> Prop) (t : str) :
  Forall P t -> Forall P (strip t).
Proof. intros. now apply Forall_rstrip, Forall_lstrip. Qed.

Lemma Forall_firstn_keep {A} (P : A -> Prop) (n : nat) (l : list A) :
  Forall P l -> Forall P (firstn n l).
Proof.
  revert l; induction n as [|n IH]; intros l H; simpl; auto.
  destruct H; auto.
Qed.

Lemma Forall_filter_class (f : N -> bool) (t : str) :
  Forall (fun c => f c = true) (filter f t).
Proof.
  apply Forall_forall. intros c H. now apply filter_In in H.
Qed.

(** ** Whitespace runs and [split] *)

Lemma split_ws_nil_iff (t : str) :
  split_ws t = [] <-> forallb isspace t = true.
Proof.
  induction t as [|c t IH]; simpl; [tauto|].
  destruct (isspace c) eqn:E; simpl; auto.
  split; [|discriminate].
  destruct t as [|d t']; [discriminate|].
  destruct (isspace d); [discriminate|].
  destruct (split_ws (d :: t')); discriminate.
Qed.

Lemma rstrip_nil_iff (t : str) :
  rstrip t = [] <-> forallb isspace t = true.
Proof.
  induction t as [|c t IH]; simpl; [tauto|].
  destruct (rstrip t) eqn:R.
  - destruct (isspace c); simpl; [tauto|].
    split; discriminate.
  - split; [discriminate|]. intros H.
    apply andb_true_iff in H. destruct H as [_ H].
    apply IH in H. discriminate.
Qed.

Lemma split_ws_lstrip (t : str) : split_ws (lstrip t) = split_ws t.
Proof.
  induction t as [|c t IH]; auto.
  simpl. destruct (isspace c) eqn:E; auto.
  simpl. now rewrite E.
Qed.

Lemma split_ws_cons_nonspace (c : N) (t : str) :
  isspace c = false ->
  split_ws (c :: t) =
  match t with
  | [] => [[c]]
  | d :: _ =>
      if isspace d then [c] :: split_ws t
      else match split_ws t with
           | w :: ws => (c :: w) :: ws
           | [] => [[c]]
           end
  end.
Proof. intros E. simpl. now rewrite E. Qed.

Lemma split_ws_rstrip (t : str) : split_ws (rstrip t) = split_ws t.
Proof.
  induction t as [|c t IH]; auto.
  destruct (isspace c) eqn:E.
  - simpl. rewrite E.
    destruct (rstrip t) eqn:R.
    + rewrite <- IH. reflexivity.
    + rewrite <- IH. simpl. now rewrite E.
  - rewrite (split_ws_cons_nonspace c t E).
    destruct (rstrip_head c t) as [H|[r H]].
    + simpl in H. destruct (rstrip t); [rewrite E in H|]; discriminate.
    + rewrite H. rewrite (split_ws_cons_nonspace c r E).
      assert (Hr : rstrip t = r \/ (rstrip t = [] /\ r = [])).
      { simpl in H. destruct (rstrip t); [rewrite E in H|];
          inversion H; auto. }
      destruct Hr as [Hr|[Hr ->]].
      * subst r. destruct t as [|d t']; [reflexivity|].
        destruct (rstrip_head d t') as [Hd|[r' Hd]].
        -- rewrite Hd in *.
           assert (Hs : split_ws (d :: t') = [])
             by (rewrite <- IH; reflexivity).
           rewrite Hs.
           apply split_ws_nil_iff in Hs. simpl in Hs.
           apply andb_true_iff in Hs. destruct Hs as [-> _]. reflexivity.
        -- rewrite Hd in *. now rewrite IH.
      * assert (Hs : split_ws t = []) by (rewrite <- IH, Hr; reflexivity).
        destruct t as [|d t']; [reflexivity|].
        rewrite Hs. apply split_ws_nil_iff in Hs. simpl in Hs.
        apply andb_true_iff in Hs. destruct Hs as [-> _]. reflexivity.
Qed.

Lemma split_ws_strip (t : str) : split_ws (strip t) = split_ws t.
Proof. unfold strip. now rewrite split_ws_rstrip, split_ws_lstrip. Qed.

Lemma join_cons_char (sep : str) (c : N) (w : str) (ws : list str) :
  join sep ((c :: w) :: ws) = c :: join sep (w :: ws).
Proof. simpl. destruct ws; reflexivity. Qed.

(** Once the text has no whitespace at its end, replacing every run by
    [rep] while already inside a run gives the pieces joined by [rep]. *)
Lemma sub_ws_go_join (rep t : str) :
  rstrip t = t ->
  sub_ws_go rep true t = join rep (split_ws t).
Proof.
  induction t as [|c t IH]; intros Ht; auto.
  assert (Ht' : rstrip t = t).
  { simpl in Ht. destruct (rstrip t) eqn:R.
    - destruct (isspace c); [discriminate|]. now inversion Ht.
    - now inversion Ht. }
  specialize (IH Ht').
  unfold re_space in *.
  destruct (isspace c) eqn:E.
  - simpl. unfold re_space. now rewrite E.
  - rewrite (split_ws_cons_nonspace c t E).
    simpl. unfold re_space. rewrite E.
    destruct t as [|d t']; [reflexivity|].
    destruct (isspace d) eqn:Ed.
    + assert (Hne : split_ws (d :: t') <> []).
      { intros Hs. apply split_ws_nil_iff, rstrip_nil_iff in Hs.
        rewrite Ht' in Hs. discriminate. }
      assert (Hf : sub_ws_go rep false (d :: t') =
                   rep ++ sub_ws_go rep true (d :: t')).
      { simpl. unfold re_space. now rewrite Ed. }
      rewrite Hf, IH.
      destruct (split_ws (d :: t')) eqn:S; [contradiction|]. reflexivity.
    + assert (Hf : sub_ws_go rep false (d :: t') =
                   sub_ws_go rep true (d :: t')).
      { simpl. unfold re_space. now rewrite Ed. }
      rewrite Hf, IH.
      destruct (split_ws (d :: t')) eqn:S.
      * apply split_ws_nil_iff in S. simpl in S. rewrite Ed in S. discriminate.
      * now rewrite join_cons_char.
Qed.

(** [re.sub(r'\s+', rep, t.strip())] is [rep.join(t.split())]. *)
Lemma re_sub_ws_strip (rep t : str) :
  re_sub_ws rep (strip t) = join rep (split_ws t).
Proof.
  rewrite <- (split_ws_strip t), <- sub_ws_go_join by apply rstrip_of_strip.
  unfold re_sub_ws. pose proof (strip_head t) as H.
  destruct (strip t) as [|c r]; auto.
  simpl. unfold re_space. now rewrite H.
Qed.

Lemma Forall_sub_ws_go (P : N -> Prop) (rep : str) (b : bool) (t : str) :
  Forall P rep ->
  Forall (fun c => re_space c = false -> P c) t ->
  Forall P (sub_ws_go rep b t).
Proof.
  intros Hrep Ht. revert b.
  induction Ht as [|c t Hc Ht IH]; intros b; simpl; auto.
  destruct (re_space c) eqn:E.
  - destruct b; auto. apply Forall_app; auto.
  - constructor; auto.
Qed.

End StringFacts.

(* ================================================================== *)
(** * Text normaliser: properties *)

Section NormalizerFacts.
Context {U : Unicode}.

Lemma filename_class_nonspace (c : N) :
  filename_class c = true -> re_space c = false -> filename_char c = true.
Proof.
  unfold filename_class, filename_char. intros H E. rewrite E in H.
  now rewrite orb_false_r in H.
Qed.

Lemma clean_filename_chars (text : str) :
  Forall (fun c => filename_char c = true) (clean_filename text).
Proof.
  unfold clean_filename, re_sub_ws.
  apply Forall_firstn_keep, Forall_sub_ws_go.
  - repeat constructor.
  - apply Forall_strip.
    eapply Forall_impl; [|apply Forall_filter_class].
    intros c Hc. apply (filename_class_nonspace c Hc).
Qed.

(** C7: [clean_text] gives the same text in body mode and in title mode,
    for every input; for [None] and for the empty string both modes give
    the empty string (the function has no failing path on a string or
    [None]). *)
Theorem clean_text_modes_agree :
  (forall t : option str, clean_text t true = clean_text t false) /\
  (forall for_body : bool, clean_text None for_body = []) /\
  (forall for_body : bool, clean_text (Some []) for_body = []).
Proof.
  split; [|split; reflexivity].
  intros [[|c t]|]; try reflexivity.
  unfold clean_text. now rewrite strip_idem.
Qed.

(** C6, as amended: the result of [clean_filename] has at most 50
    characters, all of them in [[A-Za-z0-9_-]]; whitespace at the two ends
    is removed and every run of whitespace left inside is replaced by one
    underscore -- the result is the first 50 characters of the
    whitespace-separated pieces of the folded and filtered text joined by
    underscores; the empty string gives the empty string.  The function is
    a function of its input and the normal-form table alone. *)
Theorem clean_filename_trimmed_joined (text : str) :
  length (clean_filename text) <= 50 /\
  Forall (fun c => filename_char c = true) (clean_filename text) /\
  clean_filename text =
    firstn 50 (join (lit "_")
      (split_ws (re_sub_delete_outside filename_class (ascii_fold text)))) /\
  clean_filename [] = [].
Proof.
  split; [|split; [|split]].
  - apply firstn_le_length.
  - apply clean_filename_chars.
  - unfold clean_filename. now rewrite re_sub_ws_strip.
  - unfold clean_filename, ascii_fold. now rewrite normalize_NFKD_nil.
Qed.

End NormalizerFacts.

(** C6, as stated, fails: the whitespace run that opens [" a"] is
    dropped, not replaced by an underscore; the normaliser as the
    specification words it gives ["_a"]. *)
Lemma clean_filename_leading_space_dropped :
  clean_filename (U:=ascii_unicode) (lit " a") = lit "a" /\
  count_char (clean_filename (U:=ascii_unicode) (lit " a")) 95 = 0 /\
  spec_normalizeForFilename (U:=ascii_unicode) (lit " a") = lit "_a".
Proof. repeat split. Qed.

(* ================================================================== *)
(** * Run orchestrator: properties *)

Section DecimalFacts.

Lemma lit_inj (a b : string) : lit a = lit b -> a = b.
Proof.
  unfold lit. intros H.
  rewrite <- (string_of_list_ascii_of_string a),
          <- (string_of_list_ascii_of_string b).
  f_equal. revert H.
  generalize (list_ascii_of_string a) (list_ascii_of_string b).
  induction l as [|x l IH]; intros [|y l']; simpl; intros H;
    try discriminate; auto.
  inversion H as [[Hx Hl]]. f_equal; auto.
  rewrite <- (ascii_N_embedding x), <- (ascii_N_embedding y). now rewrite Hx.
Qed.

Lemma string_of_uint_of_nat (d1 d2 : Decimal.uint) :
  DecimalString.NilZero.string_of_uint d1 =
  DecimalString.NilZero.string_of_uint d2 ->
  Nat.of_uint d1 = Nat.of_uint d2.
Proof.
  intros H.
  assert (Hu : forall d, d <> Decimal.Nil ->
             DecimalString.NilEmpty.uint_of_string
               (DecimalString.NilZero.string_of_uint d) = Some d).
  { intros d Hd. destruct d; try contradiction;
      apply DecimalString.NilEmpty.usu. }
  assert (Hz : forall d, DecimalString.NilZero.string_of_uint d = "0"%string ->
             Nat.of_uint d = 0).
  { intros d Hd. destruct d; try reflexivity; try discriminate.
    simpl in Hd. inversion Hd as [Hd'].
    destruct d; try discriminate. reflexivity. }
  destruct d1 eqn:E1;
    [ rewrite (Hz d2 (eq_sym H)); reflexivity | .. ];
    (destruct d2 eqn:E2;
     [ rewrite <- E1 in *; rewrite (Hz d1 H); reflexivity | .. ]);
    rewrite <- E1, <- E2 in *;
    (assert (Hs : Some d1 = Some d2);
     [ rewrite <- (Hu d1), <- (Hu d2), H by (subst; discriminate);
       reflexivity
     | inversion Hs; reflexivity ]).
Qed.

Lemma str_of_nat_inj (n m : nat) : str_of_nat n = str_of_nat m -> n = m.
Proof.
  unfold str_of_nat. intros H. apply lit_inj in H.
  apply string_of_uint_of_nat in H.
  now rewrite !DecimalNat.Unsigned.of_to in H.
Qed.

Lemma digits_of_uint (d : Decimal.uint) :
  Forall (fun c => is_digit c = true)
         (lit (DecimalString.NilEmpty.string_of_uint d)).
Proof.
  induction d; simpl; constructor; auto.
Qed.

Lemma str_of_nat_digits (n : nat) :
  Forall (fun c => is_digit c = true) (str_of_nat n).
Proof.
  unfold str_of_nat. generalize (Nat.to_uint n). intros d.
  destruct d; try (apply (digits_of_uint _)).
  repeat constructor.
Qed.

Lemma str_of_nat_no_underscore (n : nat) : ~ In 95%N (str_of_nat n).
Proof.
  intros H. pose proof (str_of_nat_digits n) as Hd.
  rewrite Forall_forall in Hd. specialize (Hd _ H). discriminate.
Qed.

End DecimalFacts.

(* ================================================================== *)
(** * Text normaliser: further properties *)

Section CollapseFacts.

(** The replacement by one space, on the two sides of [strip]. *)

Lemma sub_ws_go_spaces (rep u : str) :
  forallb isspace u = true -> sub_ws_go rep true u = [].
Proof.
  induction u as [|c u IH]; simpl; auto.
  intros H. apply andb_true_iff in H. destruct H as [Hc Hu].
  unfold re_space. rewrite Hc. auto.
Qed.

Lemma forallb_isspace_sub_ws (b : bool) (u : str) :
  forallb isspace (sub_ws_go (lit " ") b u) = forallb isspace u.
Proof.
  revert b. induction u as [|c u IH]; intros b; simpl; auto.
  unfold re_space. destruct (isspace c) eqn:E.
  - destruct b; simpl; apply IH.
  - simpl. now rewrite E.
Qed.

Lemma rstrip_cons_nonspace (c : N) (y : str) :
  isspace c = false -> rstrip (c :: y) = c :: rstrip y.
Proof. intros E. simpl. destruct (rstrip y); [now rewrite E|reflexivity]. Qed.

Lemma rstrip_cons_keep (c : N) (y : str) :
  rstrip y <> [] -> rstrip (c :: y) = c :: rstrip y.
Proof. intros H. simpl. destruct (rstrip y); [contradiction|reflexivity]. Qed.

Lemma lstrip_sub_ws (b : bool) (t : str) :
  lstrip (sub_ws_go (lit " ") b t) = sub_ws_go (lit " ") false (lstrip t).
Proof.
  revert b. induction t as [|c t IH]; intros b; auto.
  simpl. unfold re_space. destruct (isspace c) eqn:E.
  - destruct b; simpl; apply IH.
  - simpl. unfold re_space. now rewrite E.
Qed.

Lemma rstrip_sub_ws (u : str) :
  forall b : bool,
    rstrip (sub_ws_go (lit " ") b u) = sub_ws_go (lit " ") b (rstrip u).
Proof.
  induction u as [|c u IH]; intros b; auto.
  destruct (isspace c) eqn:E.
  - destruct (forallb isspace u) eqn:Hall.
    + assert (Hr : rstrip (c :: u) = []).
      { apply rstrip_nil_iff. simpl. now rewrite E, Hall. }
      rewrite Hr. apply rstrip_nil_iff.
      rewrite forallb_isspace_sub_ws. simpl. now rewrite E, Hall.
    + assert (Hu : rstrip u <> []).
      { intros H. apply rstrip_nil_iff in H. congruence. }
      rewrite (rstrip_cons_keep c u Hu).
      simpl. unfold re_space. rewrite E.
      assert (Hs : rstrip (sub_ws_go (lit " ") true u) <> []).
      { intros H. apply rstrip_nil_iff in H.
        rewrite forallb_isspace_sub_ws in H. congruence. }
      destruct b.
      * apply IH.
      * change (lit " " ++ sub_ws_go (lit " ") true u)
          with (32%N :: sub_ws_go (lit " ") true u).
        rewrite (rstrip_cons_keep 32%N _ Hs). rewrite IH. reflexivity.
  - rewrite (rstrip_cons_nonspace c u E).
    simpl sub_ws_go. unfold re_space. rewrite E.
    rewrite (rstrip_cons_nonspace c _ E). now rewrite IH.
Qed.

Lemma strip_re_sub_ws (t : str) :
  strip (re_sub_ws (lit " ") t) = re_sub_ws (lit " ") (strip t).
Proof.
  unfold strip, re_sub_ws. now rewrite lstrip_sub_ws, rstrip_sub_ws.
Qed.

Lemma sub_ws_go_idem (t : str) :
  forall b : bool,
    sub_ws_go (lit " ") b (sub_ws_go (lit " ") b t) = sub_ws_go (lit " ") b t.
Proof.
  induction t as [|c t IH]; intros b; auto.
  simpl. unfold re_space. destruct (isspace c) eqn:E.
  - destruct b; [apply IH|].
    simpl. unfold re_space. simpl. now rewrite IH.
  - simpl. unfold re_space. rewrite E. now rewrite IH.
Qed.

(** ** Texts without whitespace, and ASCII ranges *)

Lemma filter_all {A} (f : A -> bool) (l : list A) :
  Forall (fun x => f x = true) l -> filter f l = l.
Proof.
  induction 1 as [|x l Hx Hl IH]; simpl; auto.
  now rewrite Hx, IH.
Qed.

Lemma lstrip_no_space (t : str) :
  Forall (fun c => isspace c = false) t -> lstrip t = t.
Proof. intros [|c l Hc Hl]; simpl; auto. now rewrite Hc. Qed.

Lemma rstrip_no_space (t : str) :
  Forall (fun c => isspace c = false) t -> rstrip t = t.
Proof.
  induction 1 as [|c l Hc Hl IH]; auto.
  now rewrite (rstrip_cons_nonspace c l Hc), IH.
Qed.

Lemma sub_ws_go_no_space (rep : str) (t : str) :
  Forall (fun c => isspace c = false) t ->
  forall b, sub_ws_go rep b t = t.
Proof.
  induction 1 as [|c l Hc Hl IH]; intros b; simpl; auto.
  unfold re_space. now rewrite Hc, IH.
Qed.

(** A property of characters checked on the 128 ASCII code points. *)
Lemma ascii_range_check (P : N -> bool) :
  forallb P (map N.of_nat (seq 0 128)) = true ->
  forall c, (c < 128)%N -> P c = true.
Proof.
  intros H c Hc. rewrite forallb_forall in H. apply H.
  apply in_map_iff. exists (N.to_nat c). split; [apply N2Nat.id|].
  apply in_seq. lia.
Qed.

Lemma re_word_ascii (c : N) : re_word c = true -> (c < 128)%N.
Proof.
  unfold re_word, is_digit, is_upper, is_lower.
  rewrite !orb_true_iff, !andb_true_iff, !N.leb_le, N.eqb_eq. lia.
Qed.

Lemma filename_char_ascii (c : N) : filename_char c = true -> (c < 128)%N.
Proof.
  unfold filename_char. rewrite orb_true_iff, N.eqb_eq.
  intros [H|H]; [now apply re_word_ascii|lia].
Qed.

Lemma text_char_ascii (c : N) : text_char c = true -> (c < 128)%N.
Proof.
  unfold text_char. simpl.
  rewrite !orb_true_iff, !N.eqb_eq.
  intros H. repeat destruct H as [H|H];
    try lia; try discriminate; try (now apply re_word_ascii).
Qed.

Lemma filename_char_facts (c : N) :
  filename_char c = true ->
  isspace c = false /\ filename_class c = true /\ (c <? 128)%N = true.
Proof.
  intros H. pose proof (filename_char_ascii c H) as Hc.
  assert (Hall : (negb (filename_char c) ||
                  negb (isspace c) && filename_class c) = true).
  { apply (ascii_range_check
             (fun c => negb (filename_char c) ||
                       negb (isspace c) && filename_class c));
      [vm_compute; reflexivity|exact Hc]. }
  rewrite H in Hall. simpl in Hall. apply andb_true_iff in Hall.
  destruct Hall as [H1 H2]. apply negb_true_iff in H1.
  repeat split; auto. now apply N.ltb_lt.
Qed.

Lemma text_char_facts (c : N) :
  text_char c = true ->
  body_class c = true /\ (c <? 128)%N = true /\
  (isspace c = true -> c = 32%N).
Proof.
  intros H. pose proof (text_char_ascii c H) as Hc.
  assert (Hall : (negb (text_char c) ||
                  body_class c && (negb (isspace c) || (c =? 32)%N)) = true).
  { apply (ascii_range_check
             (fun c => negb (text_char c) ||
                       body_class c && (negb (isspace c) || (c =? 32)%N)));
      [vm_compute; reflexivity|exact Hc]. }
  rewrite H in Hall. simpl in Hall. apply andb_true_iff in Hall.
  destruct Hall as [H1 H2]. repeat split; auto.
  - now apply N.ltb_lt.
  - intros Hs. rewrite Hs in H2. simpl in H2. now apply N.eqb_eq.
Qed.

Lemma body_class_text_char (c : N) :
  body_class c = true -> re_space c = false -> text_char c = true.
Proof.
  unfold body_class, text_char. intros H E. rewrite E in H.
  rewrite orb_false_r in H.
  change (lit " .,!?'") with (32%N :: lit ".,!?'").
  simpl existsb in *.
  rewrite !orb_true_iff in *. intuition.
Qed.

End CollapseFacts.

Section NormalizerMore.
Context {U : Unicode}.

(** Both modes of [clean_text], whatever the input, as one [strip] after
    the replacement. *)
Lemma clean_text_unfold (t : str) (for_body : bool) :
  clean_text (Some t) for_body =
  strip (re_sub_ws (lit " ")
           (re_sub_delete_outside body_class (ascii_fold t))).
Proof.
  destruct t as [|c t].
  - simpl. unfold ascii_fold. now rewrite normalize_NFKD_nil.
  - unfold clean_text. destruct for_body; [reflexivity|apply strip_idem].
Qed.

Lemma clean_text_chars (t : option str) (for_body : bool) :
  Forall (fun c => text_char c = true) (clean_text t for_body).
Proof.
  destruct t as [t|]; [|constructor].
  rewrite clean_text_unfold. unfold re_sub_ws.
  apply Forall_strip, Forall_sub_ws_go.
  - repeat constructor.
  - eapply Forall_impl; [|apply Forall_filter_class].
    intros c Hc. apply (body_class_text_char c Hc).
Qed.

(** X1: on every string, and in both modes, [clean_text] gives the
    whitespace-separated pieces of the folded and filtered text joined
    by single spaces: no whitespace at the ends, one space between two
    pieces, no tab and no line break. *)
Theorem clean_text_pieces_joined (t : str) (for_body : bool) :
  clean_text (Some t) for_body =
  join (lit " ")
       (split_ws (re_sub_delete_outside body_class (ascii_fold t))).
Proof.
  rewrite clean_text_unfold, strip_re_sub_ws. apply re_sub_ws_strip.
Qed.

(** X2: every character of a cleaned text is an ASCII letter or digit,
    an underscore, a space, or one of the full stop, comma, exclamation
    and question mark, the two quotation marks and the hyphen; in
    particular the only whitespace left is the space, and a cleaned text
    is its own [strip]. *)
Theorem clean_text_alphabet (t : option str) (for_body : bool) :
  Forall (fun c => text_char c = true /\ (c < 128)%N /\
                   (isspace c = true -> c = 32%N))
         (clean_text t for_body) /\
  strip (clean_text t for_body) = clean_text t for_body.
Proof.
  split.
  - eapply Forall_impl; [|apply clean_text_chars].
    intros c Hc. destruct (text_char_facts c Hc) as [_ [H1 H2]].
    repeat split; auto. now apply N.ltb_lt.
  - destruct t as [t|]; [|reflexivity].
    rewrite clean_text_unfold. apply strip_idem.
Qed.

(** X3: a file name part that came out of [clean_filename] goes through
    it unchanged, the normal form of that ASCII text being the text
    itself. *)
Theorem clean_filename_idempotent (t : str) :
  normalize_NFKD (clean_filename t) = clean_filename t ->
  clean_filename (clean_filename t) = clean_filename t.
Proof.
  intros Hn. pose proof (clean_filename_chars t) as Hc.
  assert (Hlen : length (clean_filename t) <= 50)
    by apply firstn_le_length.
  set (r := clean_filename t) in *.
  assert (Hsp : Forall (fun c => isspace c = false) r).
  { eapply Forall_impl; [|exact Hc].
    intros c H. now destruct (filename_char_facts c H). }
  unfold clean_filename at 1. unfold ascii_fold, re_sub_delete_outside.
  rewrite Hn.
  rewrite (filter_all (fun c => (c <? 128)%N) r)
    by (eapply Forall_impl; [|exact Hc];
        intros c H; now destruct (filename_char_facts c H) as [_ [_ ?]]).
  rewrite (filter_all filename_class r)
    by (eapply Forall_impl; [|exact Hc];
        intros c H; now destruct (filename_char_facts c H) as [_ [? _]]).
  unfold strip, re_sub_ws.
  rewrite (lstrip_no_space r Hsp), (rstrip_no_space r Hsp).
  rewrite (sub_ws_go_no_space (lit "_") r Hsp).
  now apply firstn_all2.
Qed.

(** X4: a text that came out of [clean_text] goes through it unchanged,
    in either mode, the normal form of that ASCII text being the text
    itself. *)
Theorem clean_text_idempotent (t : option str) (b b' : bool) :
  normalize_NFKD (clean_text t b) = clean_text t b ->
  clean_text (Some (clean_text t b)) b' = clean_text t b.
Proof.
  intros Hn. pose proof (clean_text_chars t b) as Hc.
  rewrite clean_text_unfold.
  unfold ascii_fold, re_sub_delete_outside. rewrite Hn.
  rewrite (filter_all (fun c => (c <? 128)%N) (clean_text t b))
    by (eapply Forall_impl; [|exact Hc];
        intros c H; now destruct (text_char_facts c H) as [_ [? _]]).
  rewrite (filter_all body_class (clean_text t b))
    by (eapply Forall_impl; [|exact Hc];
        intros c H; now destruct (text_char_facts c H) as [? _]).
  destruct t as [t|]; [|reflexivity].
  rewrite clean_text_unfold.
  rewrite strip_re_sub_ws, strip_idem, <- strip_re_sub_ws.
  unfold re_sub_ws. now rewrite sub_ws_go_idem.
Qed.

End NormalizerMore.
(* ================================================================== *)
(** * The console: what can be printed *)

Section ConsoleFacts.
Context {U : Unicode} {W : World}.

Lemma can_print_app (a b : str) :
  can_print (a ++ b) = can_print a && can_print b.
Proof. apply forallb_app. Qed.

Lemma ascii_can_print (t : str) :
  forallb is_ascii t = true -> can_print t = true.
Proof.
  unfold can_print. rewrite !forallb_forall.
  intros H c Hc. apply stdout_ascii, H, Hc.
Qed.

Lemma Forall_can_print (P : N -> bool) (t : str) :
  (forall c, P c = true -> (c < 128)%N) ->
  Forall (fun c => P c = true) t -> can_print t = true.
Proof.
  intros HP Ht. apply ascii_can_print, forallb_forall.
  rewrite Forall_forall in Ht. intros c Hc.
  apply N.ltb_lt, HP, Ht, Hc.
Qed.

Lemma is_digit_ascii (c : N) : is_digit c = true -> (c < 128)%N.
Proof.
  unfold is_digit. rewrite andb_true_iff, !N.leb_le. lia.
Qed.

Lemma str_of_nat_can_print (n : nat) : can_print (str_of_nat n) = true.
Proof.
  exact (Forall_can_print is_digit _ is_digit_ascii (str_of_nat_digits n)).
Qed.

Lemma clean_text_can_print (t : option str) (for_body : bool) :
  can_print (clean_text t for_body) = true.
Proof.
  exact (Forall_can_print text_char _ text_char_ascii
                          (clean_text_chars t for_body)).
Qed.

Lemma clean_filename_can_print (t : str) :
  can_print (clean_filename t) = true.
Proof.
  exact (Forall_can_print filename_char _ filename_char_ascii
                          (clean_filename_chars t)).
Qed.

Lemma No_Title_chars : Forall (fun c => text_char c = true) No_Title.
Proof. repeat constructor. Qed.

Lemma extract_title_chars (soup : node) :
  Forall (fun c => text_char c = true) (extract_title soup).
Proof.
  unfold extract_title.
  destruct (find_title_elem soup);
    [apply clean_text_chars|apply No_Title_chars].
Qed.

Lemma extract_title_can_print (soup : node) :
  can_print (extract_title soup) = true.
Proof.
  exact (Forall_can_print text_char _ text_char_ascii
                          (extract_title_chars soup)).
Qed.

Lemma exn_name_can_print (e : exn) : can_print (exn_name e) = true.
Proof. apply ascii_can_print. now destruct e. Qed.

Lemma source_can_print (src : source) :
  can_print (name src) = true /\ can_print (url src) = true.
Proof.
  apply andb_true_iff. rewrite <- can_print_app.
  apply ascii_can_print, source_ascii.
Qed.

Lemma name_can_print (src : source) : can_print (name src) = true.
Proof. apply source_can_print. Qed.

Lemma url_can_print (src : source) : can_print (url src) = true.
Proof. apply source_can_print. Qed.

Lemma timestamp_can_print : can_print run_timestamp = true.
Proof. apply ascii_can_print, timestamp_ascii. Qed.

(** The name of an output file can be printed as soon as the name of
    the source and the timestamp can. *)
Lemma txt_filename_can_print (title src_name ts : str) (i : nat) :
  can_print src_name = true -> can_print ts = true ->
  can_print (txt_filename title src_name ts i) = true.
Proof.
  intros Hs Ht. unfold txt_filename, can_print.
  apply forallb_forall. intros c Hc.
  apply os_path_join_chars in Hc.
  destruct Hc as [Hc|[Hc|[->| ->]]];
    try (apply stdout_ascii; reflexivity).
  - pose proof desktop_printable as Hd.
    rewrite forallb_forall in Hd. now apply Hd.
  - assert (Hb : can_print
                   (src_name ++ lit "_" ++ clean_filename title ++ lit "_" ++
                    ts ++ lit "_" ++ str_of_nat i ++ lit ".txt") = true).
    { rewrite !can_print_app, !andb_true_iff.
      repeat split;
        auto using clean_filename_can_print, str_of_nat_can_print;
        apply ascii_can_print; reflexivity. }
    unfold can_print in Hb. rewrite forallb_forall in Hb. now apply Hb.
Qed.

Lemma print_line_ok (t : str) (st : run_state) :
  can_print t = true -> print_line t st = (Ok tt, st).
Proof. unfold print_line. now intros ->. Qed.

Lemma print_line_raises (t : str) (st : run_state) :
  can_print t = false -> print_line t st = (Raise UnicodeEncodeError, st).
Proof. unfold print_line. now intros ->. Qed.

Lemma bind_print_ok {A} (t : str) (k : unit -> M A) (st : run_state) :
  can_print t = true -> bind (print_line t) k st = k tt st.
Proof. intros H. unfold bind. now rewrite print_line_ok. Qed.

Lemma bind_print_raises {A} (t : str) (k : unit -> M A) (st : run_state) :
  can_print t = false ->
  bind (print_line t) k st = (Raise UnicodeEncodeError, st).
Proof. intros H. unfold bind. now rewrite print_line_raises. Qed.

Lemma bind_logging {A} (l : level) (ev : event) (k : unit -> M A)
    (st : run_state) :
  bind (logging l ev) k st = k tt (snd (logging l ev st)).
Proof. reflexivity. Qed.

End ConsoleFacts.

(** Splits the text of a printed line into its parts. *)
Ltac printable :=
  rewrite ?can_print_app, ?andb_true_iff;
  repeat split;
  auto using str_of_nat_can_print, clean_text_can_print,
    clean_filename_can_print, extract_title_can_print, exn_name_can_print,
    name_can_print, url_can_print, timestamp_can_print,
    txt_filename_can_print;
  try (apply ascii_can_print; reflexivity).
(* ================================================================== *)
(** * Article extractor: properties *)

Section ExtractorFacts.
Context {U : Unicode} {W : World}.

(** When its address can be printed, [scrape_article] returns normally,
    with the value and the log lines of [scrape_outcome]. *)
Lemma scrape_article_run (u src_name : str) (st : run_state) :
  can_print u = true ->
  scrape_article u src_name st =
  (Ok (fst (scrape_outcome u (http_get (requests st) u))),
   after_request st
     ((INFO, ScrapingArticle u) ::
      snd (scrape_outcome u (http_get (requests st) u)))).
Proof.
  intros Hu.
  assert (H1 : can_print (lit "Scraping article: " ++ u) = true)
    by printable.
  assert (H2 : forall e, can_print (lit "Error scraping " ++ u ++ lit ": " ++
                                    exn_name e) = true)
    by (intros e; printable).
  assert (H3 : can_print (lit "Skipping non-English page: " ++ u) = true)
    by printable.
  assert (H4 : forall n, can_print (lit "Insufficient content for " ++ u ++
                 lit ": " ++ str_of_nat n ++ lit " elements found") = true)
    by (intros n; printable).
  assert (H5 : forall t n, can_print t = true ->
                 can_print (lit "Scraped: Title='" ++ t ++
                            lit "', Elements=" ++ str_of_nat n) = true)
    by (intros t n Ht; printable).
  unfold scrape_article, scrape_article_try, try_except, bind, fetch,
    lift, logging, ret, scrape_outcome, after_request, print_line.
  rewrite H1. cbn [requests all_articles idx saves log].
  destruct (http_get (requests st) u) as [soup|e];
    [|rewrite H2; cbn [fst snd log]; now rewrite <- app_assoc].
  destruct (read_lang soup) as [lang|e];
    [|rewrite H2; cbn [fst snd log]; now rewrite <- app_assoc].
  destruct (language_gate lang);
    [rewrite H3; cbn [fst snd log]; now rewrite <- app_assoc|].
  destruct (length (walk soup) <? 2).
  - rewrite H4. cbn [fst snd log]. now rewrite <- app_assoc.
  - rewrite H5 by apply extract_title_can_print.
    cbn [fst snd log]. now rewrite <- app_assoc.
Qed.

(** An address the console cannot encode: the [print] before the [try]
    raises, after the first log line and before any request. *)
Lemma scrape_article_unprintable (u src_name : str) (st : run_state) :
  can_print u = false ->
  scrape_article u src_name st =
  (Raise UnicodeEncodeError, snd (logging INFO (ScrapingArticle u) st)).
Proof.
  intros Hu. unfold scrape_article.
  rewrite bind_logging, bind_print_raises; [reflexivity|].
  rewrite can_print_app, Hu. apply andb_false_r.
Qed.

(** A link whose scrape gave no elements: one more log line, nothing
    else. *)
Lemma process_link_skip (src : source) (ts link : str) (st : run_state)
    (title : str) :
  can_print link = true ->
  fst (scrape_outcome link (http_get (requests st) link)) = (title, []) ->
  process_link src ts link st =
  (Ok tt,
   after_request st
     ((INFO, ScrapingArticle link) ::
      snd (scrape_outcome link (http_get (requests st) link)) ++
      [(WARNING, NoContentFound link)])).
Proof.
  intros Hl H. unfold process_link.
  rewrite bind_print_ok by printable.
  unfold bind at 1. rewrite scrape_article_run, H by assumption.
  rewrite bind_logging, print_line_ok by printable.
  unfold logging, after_request. simpl.
  now rewrite <- app_assoc.
Qed.

(** A link the console cannot encode: the body of the loop raises at
    its first line and leaves the state as it is. *)
Lemma process_link_unprintable (src : source) (ts link : str)
    (st : run_state) :
  can_print link = false ->
  process_link src ts link st = (Raise UnicodeEncodeError, st).
Proof.
  intros Hl. unfold process_link.
  rewrite bind_print_raises; [reflexivity|].
  rewrite can_print_app, Hl. apply andb_false_r.
Qed.

Lemma mark_written_last (l : list save_call) (c : save_call) :
  mark_written (l ++ [c]) = l ++ [written c].
Proof.
  induction l as [|x l IH]; [reflexivity|].
  change ((x :: l) ++ [c]) with (x :: (l ++ [c])).
  change ((x :: l) ++ [written c]) with (x :: (l ++ [written c])).
  rewrite <- IH.
  destruct l; reflexivity.
Qed.

(** What a call of [save_article] does to the state, whatever the
    console and the file system do: the call is on record, written or
    not, and nothing else of the books changes. *)
Lemma save_article_effect (title : str) (elements : list ContentElement)
    (src_name u ts : str) (i : nat) (st : run_state) :
  (exists w,
      saves (snd (save_article title elements src_name u ts i st)) =
      saves st ++
      [{| call_timestamp := ts; call_idx := i;
          call_filename := txt_filename title src_name ts i;
          call_content :=
            text_content title elements src_name u
                         (now_date (length (saves st)));
          call_written := w |}]) /\
  all_articles (snd (save_article title elements src_name u ts i st)) =
    all_articles st /\
  idx (snd (save_article title elements src_name u ts i st)) = idx st /\
  requests (snd (save_article title elements src_name u ts i st)) =
    requests st.
Proof.
  unfold save_article, note_call, try_except, bind, write_file, logging,
    print_line.
  cbn [saves all_articles idx requests log fst snd].
  destruct (can_print (lit "Generating text file: " ++ _)).
  - destruct (open_write _ _ _) as [[]|e].
    + cbn [saves all_articles idx requests log fst snd].
      rewrite mark_written_last.
      destruct (can_print (lit "Saved article to " ++ _));
        [|destruct (can_print _)]; cbn [saves all_articles idx requests snd];
        repeat split; auto; now exists true.
    + destruct (can_print _); cbn [saves all_articles idx requests snd];
        repeat split; eauto.
  - destruct (can_print _); cbn [saves all_articles idx requests snd];
      repeat split; eauto.
Qed.

(** With a source name and a timestamp that can be printed,
    [save_article] returns normally. *)
Lemma save_article_ok (title : str) (elements : list ContentElement)
    (src_name u ts : str) (i : nat) (st : run_state) :
  can_print src_name = true -> can_print ts = true ->
  fst (save_article title elements src_name u ts i st) = Ok tt.
Proof.
  intros Hs Ht.
  pose proof (txt_filename_can_print title src_name ts i Hs Ht) as Hf.
  assert (H1 : can_print (lit "Generating text file: " ++
                          txt_filename title src_name ts i) = true)
    by printable.
  assert (H2 : can_print (lit "Saved article to " ++
                          txt_filename title src_name ts i) = true)
    by printable.
  assert (H3 : forall e,
             can_print (lit "Error saving article " ++
                        txt_filename title src_name ts i ++ lit ": " ++
                        exn_name e) = true)
    by (intros e; printable).
  unfold save_article, note_call, try_except, bind, write_file, logging,
    print_line.
  rewrite H1.
  destruct (open_write _ _ _) as [[]|e]; [rewrite H2|rewrite H3];
    reflexivity.
Qed.





Lemma declared_lang_read (soup : node) :
  read_lang soup =
  match find soup (lit "html") with
  | None => Raise AttributeError
  | Some _ => Ok (lower (match declared_lang soup with
                         | Some v => v
                         | None => []
                         end))
  end.
Proof.
  unfold read_lang, declared_lang.
  destruct (find soup (lit "html")); reflexivity.
Qed.

Lemma language_gate_nil : language_gate [] = false.
Proof. reflexivity. Qed.

Lemma language_gate_non_english (lang : str) :
  lang <> [] -> startswith (lower lang) (lit "en") = false ->
  language_gate (lower lang) = true.
Proof.
  intros Hne Hen. unfold language_gate. rewrite Hen.
  unfold str_eqb. destruct (str_eq_dec (lower lang) []) as [E|]; auto.
  apply lower_nonempty in E. contradiction.
Qed.


End ExtractorFacts.
Section ExtractorClaims.
Context {U : Unicode} {W : World}.


(** C4: a page whose root declares a non-empty language that does not
    start with ["en"] once lowered is skipped before any element is
    looked at: ["No Title"], no element, a warning in the log and no
    error, and the loop goes on to the next links with nothing else
    changed.  A page that declares no language, or the empty one, is not
    stopped by the gate: no skip is logged, and when it has a root
    element the result is that of the extraction.  The page is one that
    was asked for: its address went through the [print] in front of the
    request. *)
Theorem language_gate_skips_only_declared_foreign
    (u src_name : str) (st : run_state) (soup : node) :
  can_print u = true ->
  http_get (requests st) u = Ok soup ->
  (forall lang,
      declared_lang soup = Some lang -> lang <> [] ->
      startswith (lower lang) (lit "en") = false ->
      scrape_article u src_name st =
        (Ok (No_Title, []),
         after_request st [(INFO, ScrapingArticle u);
                           (WARNING, SkippingNonEnglish u)]) /\
      forall (src : source) (ts : str) (rest : list str),
        for_each (u :: rest) (process_link src ts) st =
        for_each rest (process_link src ts)
          (after_request st [(INFO, ScrapingArticle u);
                             (WARNING, SkippingNonEnglish u);
                             (WARNING, NoContentFound u)])) /\
  (declared_lang soup = None \/ declared_lang soup = Some [] ->
      (exists entries,
          log (snd (scrape_article u src_name st)) = log st ++ entries /\
          ~ In (WARNING, SkippingNonEnglish u) entries) /\
      (find soup (lit "html") <> None ->
       fst (scrape_article u src_name st) =
         Ok (extract_title soup,
             if length (walk soup) <? 2 then [] else walk soup))).
Proof.
  intros Hu Hget. split.
  - intros lang Hlang Hne Hen.
    assert (Hout : scrape_outcome u (http_get (requests st) u) =
                   ((No_Title, []), [(WARNING, SkippingNonEnglish u)])).
    { rewrite Hget. unfold scrape_outcome. rewrite declared_lang_read.
      unfold declared_lang in Hlang.
      destruct (find soup (lit "html")) as [html|] eqn:Hroot;
        [|discriminate].
      unfold declared_lang. rewrite Hroot, Hlang.
      now rewrite language_gate_non_english. }
    split.
    + rewrite scrape_article_run, Hout by assumption. reflexivity.
    + intros src ts rest. simpl. unfold bind at 1.
      rewrite (process_link_skip src ts u st No_Title Hu)
        by (rewrite Hout; reflexivity).
      rewrite Hout. reflexivity.
  - intros Hlang.
    assert (Hgate : forall l, read_lang soup = Ok l -> language_gate l = false).
    { intros l. rewrite declared_lang_read.
      destruct (find soup (lit "html")); [|discriminate].
      intros H. inversion H; subst l.
      destruct Hlang as [-> | ->]; now rewrite lower_nil. }
    split.
    + rewrite scrape_article_run by assumption. simpl.
      eexists; split; [reflexivity|].
      rewrite Hget. unfold scrape_outcome.
      destruct (read_lang soup) as [l|e] eqn:Hl.
      * rewrite (Hgate l eq_refl).
        destruct (length (walk soup) <? 2); simpl;
          intros [H|[H|[]]]; discriminate.
      * simpl. intros [H|[H|[]]]; discriminate.
    + intros Hroot. rewrite scrape_article_run, Hget by assumption.
      unfold scrape_outcome.
      destruct (read_lang soup) as [l|e] eqn:Hl.
      * rewrite (Hgate l eq_refl).
        destruct (length (walk soup) <? 2); reflexivity.
      * rewrite declared_lang_read in Hl.
        destruct (find soup (lit "html")); [discriminate|contradiction].
Qed.

(** C3: a page whose walk yields exactly one qualifying element gives an
    empty list of elements, and the loop writes no file and keeps no
    article for it; a page that gets as far as the walk and whose walk
    yields exactly two gives these two elements, a non-empty list.  The
    page is one that was asked for: its address went through the
    [print] in front of the request. *)
Theorem richness_gate_one_and_two
    (u src_name : str) (st : run_state) (soup : node) :
  can_print u = true ->
  http_get (requests st) u = Ok soup ->
  (length (walk soup) = 1 ->
     (exists title,
         fst (scrape_article u src_name st) = Ok (title, [])) /\
     forall (src : source) (ts : str),
       saves (snd (process_link src ts u st)) = saves st /\
       all_articles (snd (process_link src ts u st)) = all_articles st /\
       idx (snd (process_link src ts u st)) = idx st) /\
  (walk_reached soup = true -> length (walk soup) = 2 ->
     fst (scrape_article u src_name st) = Ok (extract_title soup, walk soup) /\
     walk soup <> []).
Proof.
  intros Hu Hget. split.
  - intros Hone.
    assert (Hout : exists title,
               fst (scrape_outcome u (http_get (requests st) u)) = (title, [])).
    { rewrite Hget. unfold scrape_outcome.
      destruct (read_lang soup) as [l|e]; [|simpl; eauto].
      destruct (language_gate l); [simpl; eauto|].
      rewrite Hone. simpl. eauto. }
    destruct Hout as [title Hout]. split.
    + exists title. rewrite scrape_article_run by assumption. simpl.
      now rewrite Hout.
    + intros src ts.
      now rewrite (process_link_skip src ts u st title Hu Hout).
  - intros Hreach Htwo. split.
    + rewrite scrape_article_run, Hget by assumption. unfold scrape_outcome.
      unfold walk_reached in Hreach.
      destruct (read_lang soup) as [l|e]; [|discriminate].
      destruct (language_gate l); [discriminate|].
      now rewrite Htwo.
    + intros E. rewrite E in Htwo. discriminate.
Qed.

(** C2, as amended: on a page that gets past the language gate, a title
    element that is found and whose normalised text is empty gives the
    empty title; ["No Title"] is the title when no title element is
    found.  The page is one that was asked for: its address went through
    the [print] in front of the request. *)
Theorem title_default_only_without_element
    (u src_name : str) (st : run_state) (soup : node) :
  can_print u = true ->
  http_get (requests st) u = Ok soup ->
  walk_reached soup = true ->
  (forall e, find_title_elem soup = Some e ->
     clean_text (Some (get_text e)) false = [] ->
     exists elements,
       fst (scrape_article u src_name st) = Ok ([], elements)) /\
  (find_title_elem soup = None ->
     exists elements,
       fst (scrape_article u src_name st) = Ok (No_Title, elements)).
Proof.
  intros Hu Hget Hreach.
  assert (Hres : exists elements,
             fst (scrape_article u src_name st) =
             Ok (extract_title soup, elements)).
  { rewrite scrape_article_run, Hget by assumption. unfold scrape_outcome.
    unfold walk_reached in Hreach.
    destruct (read_lang soup) as [l|e]; [|discriminate].
    destruct (language_gate l); [discriminate|].
    destruct (length (walk soup) <? 2); simpl; eauto. }
  destruct Hres as [elements Hres]. unfold extract_title in Hres.
  split.
  - intros e He Hempty. rewrite He, Hempty in Hres. eauto.
  - intros Hnone. rewrite Hnone in Hres. eauto.
Qed.

End ExtractorClaims.

(* ================================================================== *)
(** * Link classifier: properties *)

Section ClassifierFacts.
Context {U : Unicode}.

Lemma mem_In (x : str) (l : list str) : mem x l = true <-> In x l.
Proof.
  unfold mem. rewrite existsb_exists. split.
  - intros [y [Hy E]]. unfold str_eqb in E.
    destruct (str_eq_dec x y); [now subst|discriminate].
  - intros H. exists x. split; auto. unfold str_eqb.
    destruct (str_eq_dec x x); congruence.
Qed.

Lemma no_repeat_NoDup (l : list str) : no_repeat l = true -> NoDup l.
Proof.
  induction l as [|x l IH]; simpl; intros H; constructor.
  - apply andb_true_iff in H. destruct H as [H _].
    intros Hin. apply mem_In in Hin. rewrite Hin in H. discriminate.
  - apply IH. apply andb_true_iff in H. tauto.
Qed.

Lemma is_list_of_set_sound (l out : list str) :
  is_list_of_set l out = true ->
  NoDup out /\ incl out l /\ incl l out.
Proof.
  unfold is_list_of_set. intros H.
  apply andb_true_iff in H. destruct H as [H H3].
  apply andb_true_iff in H. destruct H as [H1 H2].
  rewrite forallb_forall in H2, H3. repeat split.
  - now apply no_repeat_NoDup.
  - intros x Hx. now apply mem_In, H2.
  - intros x Hx. now apply mem_In, H3.
Qed.

Lemma NoDup_firstn_keep {A} (n : nat) (l : list A) :
  NoDup l -> NoDup (firstn n l).
Proof.
  revert l. induction n as [|n IH]; intros l H; simpl; [constructor|].
  destruct H as [|x l Hx Hl]; constructor; auto.
  intros Hin. apply Hx.
  rewrite <- (firstn_skipn n l). apply in_or_app. now left.
Qed.

(** A resolved href is the resolution of an href of the page. *)
Lemma resolved_In (src : source) (hrefs : list str) (u : str) :
  In u (resolved src hrefs) <->
  exists h, In h hrefs /\ urljoin (url src) h = Ok u.
Proof.
  unfold resolved. rewrite in_flat_map. split.
  - intros [h [Hh Hu]]. exists h. split; [exact Hh|].
    destruct (urljoin (url src) h) as [href|e]; [|contradiction].
    destruct Hu as [->|[]]. reflexivity.
  - intros [h [Hh Hu]]. exists h. split; [exact Hh|].
    rewrite Hu. now left.
Qed.

(** When the loop ends normally every href of the page was resolved. *)
Lemma classify_links_resolves (src : source) (hrefs : list str) :
  forall links rejected,
    classify_links src hrefs = Ok (links, rejected) ->
    length (resolved src hrefs) = length hrefs.
Proof.
  induction hrefs as [|h hrefs IH]; simpl; intros links rejected H.
  - reflexivity.
  - destruct (urljoin (url src) h) as [href|e]; [|discriminate].
    destruct (passes_filter src href) as [pass|e]; [|discriminate].
    destruct (classify_links src hrefs) as [[al rl]|e]; [|discriminate].
    simpl. f_equal. exact (IH al rl eq_refl).
Qed.

(** What the loop puts in [article_links]: the resolved hrefs that are
    accepted, in the order of the page. *)
Lemma classify_links_accepts (src : source) (hrefs : list str) :
  forall links rejected,
    classify_links src hrefs = Ok (links, rejected) ->
    links = filter (accepts src) (resolved src hrefs).
Proof.
  induction hrefs as [|h hrefs IH]; simpl; intros links rejected H.
  - now inversion H.
  - destruct (urljoin (url src) h) as [href|e]; [|discriminate].
    rewrite filter_app. simpl. unfold accepts at 1.
    destruct (passes_filter src href) as [pass|e]; [|discriminate].
    destruct (classify_links src hrefs) as [[al rl]|e]; [|discriminate].
    specialize (IH al rl eq_refl).
    destruct pass; [destruct (allow_rule src href)|];
      inversion H; subst; reflexivity.
Qed.

Lemma accepts_host (src : source) (href : str) :
  accepts src href = true ->
  exists host,
    listing_host (url src) = Ok host /\
    startswith href (lit "http") = true /\
    str_in host href = true /\
    blocklisted href = false /\
    allow_rule src href = true.
Proof.
  unfold accepts, passes_filter.
  destruct (startswith href (lit "http")); [|discriminate].
  destruct (listing_host (url src)) as [host|e]; [|discriminate].
  destruct (str_in host href) eqn:Hhost; simpl; [|discriminate].
  destruct (blocklisted href); simpl; [discriminate|].
  intros H. exists host. repeat split; auto.
Qed.

(** C1, as amended: a link the classifier accepts is the resolution of
    an href of the page, and the host of the listing is a substring of
    that resolved URL taken as a whole. *)
Theorem classified_link_contains_listing_host
    (src : source) (hrefs links rejected : list str) (u : str) :
  classify_links src hrefs = Ok (links, rejected) ->
  In u links ->
  exists host h,
    listing_host (url src) = Ok host /\
    In h hrefs /\ urljoin (url src) h = Ok u /\
    str_in host u = true.
Proof.
  intros Hc Hin.
  rewrite (classify_links_accepts src hrefs links rejected Hc) in Hin.
  apply filter_In in Hin. destruct Hin as [Hin Hacc].
  apply resolved_In in Hin. destruct Hin as [h [Hh Hu]].
  destruct (accepts_host src u Hacc) as [host [H1 [_ [H3 _]]]].
  exists host, h. auto.
Qed.

Lemma cap_links_nonneg (order : list str -> list str) (links : list str)
    (max : Z) :
  (0 <= max)%Z ->
  cap_links order links max = firstn (Z.to_nat max) (order links).
Proof.
  intros H. unfold cap_links, slice_to.
  destruct (0 <=? max)%Z eqn:E; auto.
  apply Z.leb_gt in E. lia.
Qed.

Lemma cap_links_neg (order : list str -> list str) (links : list str)
    (k : nat) :
  0 < k ->
  cap_links order links (- Z.of_nat k) =
  firstn (length (order links) - k) (order links).
Proof.
  intros H. unfold cap_links, slice_to.
  destruct (0 <=? - Z.of_nat k)%Z eqn:E.
  - apply Z.leb_le in E. lia.
  - now rewrite Z.opp_involutive, Nat2Z.id.
Qed.

(** C5, as amended: for a cap that is not negative, the candidates are
    pairwise distinct and at most as many as the cap; for a listing of 10
    links on a source under the default rule, 3 of them accepted and
    distinct and 7 on the blocklist, they are exactly [min 3 cap]. *)
Theorem cap_links_bounded_when_nonnegative
    (src : source) (hrefs links rejected : list str)
    (order : list str -> list str) (max : Z) :
  classify_links src hrefs = Ok (links, rejected) ->
  is_list_of_set links (order links) = true ->
  (0 <= max)%Z ->
  NoDup (cap_links order links max) /\
  (Z.of_nat (length (cap_links order links max)) <= max)%Z /\
  (uses_default_rule src = true ->
   length hrefs = 10 ->
   length (filter (accepts src) (resolved src hrefs)) = 3 ->
   NoDup (filter (accepts src) (resolved src hrefs)) ->
   length (filter blocklisted (resolved src hrefs)) = 7 ->
   Z.of_nat (length (cap_links order links max)) = Z.min 3 max).
Proof.
  intros Hc Hset Hmax.
  destruct (is_list_of_set_sound _ _ Hset) as [Hnd [Hin Hout]].
  rewrite (cap_links_nonneg order links max Hmax).
  split; [now apply NoDup_firstn_keep|]. split.
  - pose proof (firstn_le_length (Z.to_nat max) (order links)). lia.
  - intros _ _ H3 Hnd3 _.
    rewrite <- (classify_links_accepts src hrefs links rejected Hc) in H3, Hnd3.
    assert (Hlen : length (order links) = 3).
    { pose proof (NoDup_incl_length Hnd Hin).
      pose proof (NoDup_incl_length Hnd3 Hout). lia. }
    rewrite length_firstn, Hlen. lia.
Qed.

End ClassifierFacts.

Section CapFacts.
Context {U : Unicode} {W : World}.

(** The line about the rejected links can be printed when the text of
    the list can. *)
Lemma no_links_line (src : source) (rejected : list str) :
  can_print (lit "No valid article links found for " ++ name src ++
             lit ". Rejected: " ++ repr_list rejected) =
  can_print (repr_list rejected).
Proof.
  rewrite !can_print_app, name_can_print.
  now rewrite !ascii_can_print by reflexivity.
Qed.

Lemma fetching_line (src : source) :
  can_print (lit "Fetching from " ++ name src ++ lit " (" ++ url src ++
             lit ")...") = true.
Proof. printable. Qed.

Lemma error_fetching_line (src : source) (e : exn) :
  can_print (lit "Error fetching from " ++ name src ++ lit ": " ++
             exn_name e) = true.
Proof. printable. Qed.

(** C10: the cap bounds the candidates only when it is not negative.
    With 0 no candidate is left, and the source is reported as having no
    valid links and skipped (when the console cannot encode the line
    about the rejected links, the handler of the source adds its error
    line); with [-k] the slice keeps all the deduplicated links except
    the last [k], so that more than [k] are processed as soon as there
    are more than [2 k] of them. *)
Theorem cap_zero_skips_and_negative_drops_last
    (order : list str -> list str) (links : list str) :
  cap_links order links 0 = [] /\
  (forall (src : source) (ts : str) (st : run_state) (soup : node)
          (found rejected : list str),
      http_get (requests st) (url src) = Ok soup ->
      classify_links src (anchors_href soup) = Ok (found, rejected) ->
      process_source 0 ts src st =
      (Ok tt,
       after_request st
         ([(INFO, FetchingFrom (name src) (url src));
           (WARNING, NoValidLinks (name src) (firstn 5 rejected))] ++
          (if can_print (repr_list (firstn 5 rejected)) then []
           else [(ERROR, ErrorFetching (name src) UnicodeEncodeError)])))) /\
  (forall k : nat, 0 < k ->
      cap_links order links (- Z.of_nat k) =
        firstn (length (order links) - k) (order links) /\
      order links =
        cap_links order links (- Z.of_nat k) ++
        skipn (length (order links) - k) (order links) /\
      (2 * k < length (order links) ->
       k < length (cap_links order links (- Z.of_nat k)))).
Proof.
  split; [reflexivity|]. split.
  - intros src ts st soup found rejected Hget Hc.
    unfold process_source.
    rewrite bind_logging, bind_print_ok by apply fetching_line.
    unfold try_except, process_source_try, bind at 1, fetch.
    cbn [requests snd logging]. rewrite Hget.
    unfold bind at 1, lift. rewrite Hc.
    change (cap_links set_order found 0) with (@nil str).
    cbv beta iota. rewrite bind_logging.
    unfold print_line at 1. rewrite no_links_line.
    destruct (can_print (repr_list (firstn 5 rejected))).
    + unfold after_request. simpl. now rewrite <- !app_assoc.
    + rewrite bind_logging, print_line_ok by apply error_fetching_line.
      unfold after_request. simpl. now rewrite <- !app_assoc.
  - intros k Hk. rewrite (cap_links_neg order links k Hk).
    split; [reflexivity|]. split.
    + now rewrite firstn_skipn.
    + intros H. rewrite length_firstn. lia.
Qed.

End CapFacts.

(** C1, as stated, fails: for the Healthline listing the classifier
    accepts an address on another host that carries the listing's host in
    its path; the host of that address does not contain the listing's
    host. *)
Lemma same_site_filter_accepts_foreign_host :
  classify_links (U:=ascii_unicode) Examples.healthline
    [Examples.foreign_link] = Ok ([Examples.foreign_link], []) /\
  listing_host (url Examples.healthline) = Ok (lit "www.healthline.com") /\
  spec_url_host Examples.foreign_link = lit "evil.example" /\
  str_in (lit "www.healthline.com")
         (spec_url_host Examples.foreign_link) = false.
Proof. vm_compute. repeat split. Qed.

(** C5, as stated, fails: with the cap -1, the listing of ten links with
    three accepted gives two candidates, which is more than -1 and is not
    [min 3 (-1)]. *)
Lemma negative_cap_exceeds_bound :
  classify_links (U:=ascii_unicode) Examples.healthline Examples.ten_links
    = Ok (Examples.three_links, []) /\
  is_list_of_set Examples.three_links
    (Examples.dedup Examples.three_links) = true /\
  length (cap_links Examples.dedup Examples.three_links (-1)) = 2 /\
  ~ (Z.of_nat (length (cap_links Examples.dedup Examples.three_links (-1)))
       <= -1)%Z /\
  Z.of_nat (length (cap_links Examples.dedup Examples.three_links (-1)))
    <> Z.min 3 (-1).
Proof.
  split; [reflexivity|]. split; [reflexivity|]. split; [reflexivity|].
  change (length (cap_links Examples.dedup Examples.three_links (-1)))
    with 2.
  split; [lia|discriminate].
Qed.

Section NameFacts.

(** Two texts that agree and are cut at a separator that occurs in
    neither tail have the same tail. *)
Lemma tail_after_last (s : N) (p1 : str) :
  forall (p2 d1 d2 : str),
    p1 ++ s :: d1 = p2 ++ s :: d2 ->
    ~ In s d1 -> ~ In s d2 -> d1 = d2.
Proof.
  induction p1 as [|x p1 IH]; intros [|y p2] d1 d2 H H1 H2; simpl in H.
  - now inversion H.
  - inversion H; subst. exfalso. apply H1.
    apply in_or_app. right. now left.
  - inversion H; subst. exfalso. apply H2.
    apply in_or_app. right. now left.
  - inversion H. eauto.
Qed.

Lemma indexed_names_differ (c1 c2 : save_call) :
  indexed_name c1 -> indexed_name c2 ->
  call_filename c1 = call_filename c2 -> call_idx c1 = call_idx c2.
Proof.
  intros [p1 H1] [p2 H2] E. rewrite H1, H2 in E.
  apply str_of_nat_inj.
  change (lit "_") with [95%N] in E. simpl app in E.
  assert (E' : (p1 ++ 95%N :: str_of_nat (call_idx c1)) ++ lit ".txt" =
               (p2 ++ 95%N :: str_of_nat (call_idx c2)) ++ lit ".txt").
  { rewrite <- !app_assoc. simpl. exact E. }
  apply app_inv_tail in E'.
  apply (tail_after_last 95%N p1 p2 _ _ E');
    apply str_of_nat_no_underscore.
Qed.

End NameFacts.

Section RunFacts.
Context {U : Unicode} {W : World}.

Lemma is_digit_plain (c : N) : is_digit c = true -> plain_char c = true.
Proof.
  unfold is_digit, plain_char.
  rewrite !andb_true_iff, !negb_true_iff, !N.leb_le, !N.eqb_neq. lia.
Qed.

(** On both platforms the name of the file ends as its last part
    does. *)
Lemma txt_filename_indexed (title src_name ts : str) (i : nat) :
  exists prefix,
    txt_filename title src_name ts i =
    prefix ++ lit "_" ++ str_of_nat i ++ lit ".txt".
Proof.
  unfold txt_filename.
  apply os_path_join_tail
    with (h := src_name ++ lit "_" ++ clean_filename title ++ lit "_" ++ ts).
  - now rewrite <- !app_assoc.
  - rewrite !forallb_app. apply andb_true_iff. split; [reflexivity|].
    apply andb_true_iff. split; [|reflexivity].
    apply forallb_forall. intros c Hc. apply is_digit_plain.
    pose proof (str_of_nat_digits i) as Hd.
    rewrite Forall_forall in Hd. now apply Hd.
Qed.

(** ** Commands that keep a property *)

Lemma preserves_bind {A B} (P : run_state -> Prop)
    (m : M A) (k : A -> M B) :
  preserves P m -> (forall a, preserves P (k a)) -> preserves P (bind m k).
Proof.
  intros Hm Hk st HP. unfold bind.
  specialize (Hm st HP).
  destruct (m st) as [[a|e] st1]; simpl in *; auto.
  now apply Hk.
Qed.

Lemma preserves_try_except {A} (P : run_state -> Prop)
    (body : M A) (handler : exn -> M A) :
  preserves P body -> (forall e, preserves P (handler e)) ->
  preserves P (try_except body handler).
Proof.
  intros Hb Hh st HP. unfold try_except.
  specialize (Hb st HP).
  destruct (body st) as [[a|e] st1]; simpl in *; auto.
  now apply Hh.
Qed.

Lemma preserves_for_each {A} (P : run_state -> Prop)
    (l : list A) (body : A -> M unit) :
  (forall x, preserves P (body x)) -> preserves P (for_each l body).
Proof.
  intros Hb. induction l as [|x l IH]; simpl.
  - intros st HP. exact HP.
  - apply preserves_bind; auto.
Qed.

Lemma preserves_logging (ts : str) (l : level) (ev : event) :
  preserves (run_invariant ts) (logging l ev).
Proof. intros st H. exact H. Qed.

Lemma preserves_fetch (ts u : str) : preserves (run_invariant ts) (fetch u).
Proof. intros st H. exact H. Qed.

Lemma preserves_lift {A} (ts : str) (r : result A) :
  preserves (run_invariant ts) (lift r).
Proof. intros st H. exact H. Qed.

Lemma preserves_print (P : run_state -> Prop) (t : str) :
  preserves P (print_line t).
Proof.
  intros st H. unfold print_line. now destruct (can_print t).
Qed.

(** A link leaves the calls as they are, or adds the call with the
    current index and moves the index on, whatever the write does. *)
Lemma preserves_process_link (src : source) (ts link : str) :
  can_print ts = true ->
  preserves (run_invariant ts) (process_link src ts link).
Proof.
  intros Ht st Hinv.
  destruct (can_print link) eqn:Hl;
    [|now rewrite process_link_unprintable by assumption].
  destruct (process_link src ts link st) as [r st1] eqn:E.
  unfold process_link in E.
  rewrite bind_print_ok in E by printable.
  unfold bind at 1 in E. rewrite scrape_article_run in E by assumption.
  destruct (fst (scrape_outcome link (http_get (requests st) link)))
    as [title [|x elements]].
  - rewrite bind_logging, print_line_ok in E by printable.
    injection E as <- <-. destruct Hinv. split; assumption.
  - unfold bind, append_article, read_idx, incr_idx in E.
    match type of E with
    | context [save_article ?a ?b ?c ?d ?e ?f ?s] =>
        pose proof (save_article_ok a b c d e f s (name_can_print src) Ht)
          as Hok;
        pose proof (save_article_effect a b c d e f s)
          as ([w Hs] & _ & Hi & _);
        destruct (save_article a b c d e f s) as [[[]|e'] st']
    end; [|discriminate].
    injection E as <- <-. destruct Hinv as [Hidx Hall].
    unfold after_request in *.
    cbn [fst snd all_articles idx requests saves log] in *.
    split; cbn [fst snd all_articles idx requests saves log].
    + rewrite Hs, map_app, Hidx, Hi, seq_S. reflexivity.
    + rewrite Hs. apply Forall_app. split; [assumption|].
      constructor; [|constructor]. split; [reflexivity|].
      apply txt_filename_indexed.
Qed.

Lemma preserves_process_source (max : Z) (ts : str) (src : source) :
  can_print ts = true ->
  preserves (run_invariant ts) (process_source max ts src).
Proof.
  intros Ht. unfold process_source, process_source_try.
  apply preserves_bind; [apply preserves_logging|intros _].
  apply preserves_bind; [apply preserves_print|intros _].
  apply preserves_try_except;
    [|intros e; apply preserves_bind;
      [apply preserves_logging|intros _; apply preserves_print]].
  apply preserves_bind; [apply preserves_fetch|intros soup].
  apply preserves_bind; [apply preserves_lift|intros [al rl]].
  destruct (cap_links set_order al max);
    [apply preserves_bind;
     [apply preserves_logging|intros _; apply preserves_print]|].
  apply preserves_for_each. intros x. now apply preserves_process_link.
Qed.

Lemma run_invariant_end (sources : list source) (max : Z) :
  run_invariant run_timestamp (snd (fetch_from sources max)).
Proof.
  unfold fetch_from.
  assert (H : run_invariant run_timestamp
                (snd (for_each sources (process_source max run_timestamp)
                               initial_state))).
  { apply preserves_for_each.
    - intros x. apply preserves_process_source, timestamp_can_print.
    - split; [reflexivity|constructor]. }
  destruct (for_each sources _ initial_state) as [[[]|e] st]; exact H.
Qed.

Lemma run_invariant_names (ts : str) (st : run_state) :
  run_invariant ts st -> NoDup (map call_filename (saves st)).
Proof.
  intros [Hidx Hall].
  assert (Hnd : NoDup (map call_idx (saves st)))
    by (rewrite Hidx; apply seq_NoDup).
  clear Hidx. induction (saves st) as [|c l IH]; simpl; constructor.
  - inversion Hall as [|? ? [_ Hc] Hl]; subst.
    inversion Hnd as [|? ? Hnotin _]; subst.
    intros Hin. apply in_map_iff in Hin. destruct Hin as [c' [E Hc']].
    apply Hnotin. apply in_map_iff. exists c'. split; auto.
    rewrite Forall_forall in Hl. destruct (Hl c' Hc') as [_ Hi].
    now apply indexed_names_differ.
  - inversion Hall; inversion Hnd; subst. auto.
Qed.

(** C9: in one run the calls of [save_article] carry, in the order in
    which they are made, the indices 0, 1, 2, ... -- each one a new and
    larger index -- and all of them the timestamp of the run, so that no
    two of the file names they build are equal.  The calls are all the
    calls, also those whose write fails: the index counts the calls, not
    the files written. *)
Theorem save_calls_indexed_and_distinct (sources : list source) (max : Z) :
  map call_idx (saves (snd (fetch_from sources max))) =
    seq 0 (length (saves (snd (fetch_from sources max)))) /\
  idx (snd (fetch_from sources max)) =
    length (saves (snd (fetch_from sources max))) /\
  Forall (fun c => call_timestamp c = run_timestamp)
         (saves (snd (fetch_from sources max))) /\
  NoDup (map call_filename (saves (snd (fetch_from sources max)))).
Proof.
  pose proof (run_invariant_end sources max) as Hinv.
  pose proof (run_invariant_names _ _ Hinv) as Hnames.
  destruct Hinv as [Hidx Hall].
  assert (Hlen : idx (snd (fetch_from sources max)) =
                 length (saves (snd (fetch_from sources max)))).
  { rewrite <- (length_map call_idx), Hidx. now rewrite length_seq. }
  repeat split; auto.
  - now rewrite <- Hlen.
  - eapply Forall_impl; [|exact Hall]. now intros c [H _].
Qed.

End RunFacts.

(** A run over the Healthline listing with the cap 3: three articles,
    three calls with the indices 0, 1 and 2; the second write fails and
    the third call still gets the next index. *)
Example run_with_failed_write :
  map (fun c => (call_idx c, call_written c))
      (saves (snd (fetch_from (U:=ascii_unicode) (W:=Examples.world_run)
                     [Examples.healthline] 3))) =
  [(0, true); (1, false); (2, true)].
Proof. vm_compute. reflexivity. Qed.

(* ================================================================== *)
(** * The statements at concrete pages, listings and worlds *)

Section Witnesses.
Import Examples.
#[local] Existing Instance ascii_unicode.

(** C1, amended, at the Healthline listing of ten links. *)
Lemma classified_link_contains_listing_host_witness :
  classify_links healthline ten_links = Ok (three_links, []) /\
  In article_url three_links /\
  exists host h,
    listing_host (url healthline) = Ok host /\
    In h ten_links /\ urljoin (url healthline) h = Ok article_url /\
    str_in host article_url = true.
Proof.
  split; [reflexivity|]. split; [left; reflexivity|].
  apply (classified_link_contains_listing_host
           healthline ten_links three_links [] article_url).
  - reflexivity.
  - left; reflexivity.
Defined.

(** C2, as stated, fails: the page has an [h1], the text of the [h1]
    normalises to the empty string, and the title [scrape_article]
    returns with the two paragraphs is the empty string, not
    ["No Title"]. *)
Lemma empty_title_is_returned :
  find_title_elem page_empty_h1 = Some (Tag (lit "h1") [] []) /\
  clean_text (Some (get_text (Tag (lit "h1") [] []))) false = [] /\
  fst (scrape_article (W:=world_of (Ok page_empty_h1))
         article_url source_label initial_state)
    = Ok ([], walk page_empty_h1) /\
  length (walk page_empty_h1) = 2 /\
  [] <> No_Title.
Proof.
  split; [reflexivity|]. split; [reflexivity|].
  split; [vm_compute; reflexivity|].
  split; [reflexivity|discriminate].
Qed.

(** C2, amended, at that page. *)
Lemma title_default_only_without_element_witness :
  can_print (W:=world_of (Ok page_empty_h1)) article_url = true /\
  http_get (World:=world_of (Ok page_empty_h1)) 0 article_url
    = Ok page_empty_h1 /\
  walk_reached page_empty_h1 = true /\
  exists elements,
    fst (scrape_article (W:=world_of (Ok page_empty_h1))
           article_url source_label initial_state)
    = Ok ([], elements).
Proof.
  split; [reflexivity|]. split; [reflexivity|]. split; [reflexivity|].
  apply (proj1 (@title_default_only_without_element ascii_unicode
                  (world_of (Ok page_empty_h1))
                  article_url source_label initial_state
                  page_empty_h1 eq_refl eq_refl eq_refl)
               (Tag (lit "h1") [] [])); reflexivity.
Defined.

(** C3 at a page with one qualifying paragraph and at a page with two. *)
Lemma richness_gate_one_and_two_witness :
  can_print (W:=world_of (Ok page_one)) article_url = true /\
  (length (walk page_one) = 1 /\
   exists title,
     fst (scrape_article (W:=world_of (Ok page_one))
            article_url source_label initial_state)
     = Ok (title, [])) /\
  (walk_reached page_two = true /\ length (walk page_two) = 2 /\
   fst (scrape_article (W:=world_of (Ok page_two))
          article_url source_label initial_state)
   = Ok (extract_title page_two, walk page_two)).
Proof.
  split; [reflexivity|]. split.
  - split; [reflexivity|].
    apply (proj1 (@richness_gate_one_and_two ascii_unicode
                    (world_of (Ok page_one))
                    article_url source_label initial_state page_one
                    eq_refl eq_refl)); reflexivity.
  - split; [reflexivity|]. split; [reflexivity|].
    apply (proj2 (@richness_gate_one_and_two ascii_unicode
                    (world_of (Ok page_two))
                    article_url source_label initial_state page_two
                    eq_refl eq_refl)); reflexivity.
Defined.

(** C4 at a page that declares French and at a page that declares no
    language. *)
Lemma language_gate_skips_only_declared_foreign_witness :
  can_print (W:=world_of (Ok page_french)) article_url = true /\
  (declared_lang page_french = Some (lit "fr") /\
   scrape_article (W:=world_of (Ok page_french))
     article_url source_label initial_state =
     (Ok (No_Title, []),
      after_request initial_state
        [(INFO, ScrapingArticle article_url);
         (WARNING, SkippingNonEnglish article_url)])) /\
  (declared_lang page_no_lang = None /\
   fst (scrape_article (W:=world_of (Ok page_no_lang))
          article_url source_label initial_state) =
     Ok (extract_title page_no_lang,
         if length (walk page_no_lang) <? 2 then [] else walk page_no_lang)).
Proof.
  split; [reflexivity|]. split.
  - split; [reflexivity|].
    apply (proj1 (@language_gate_skips_only_declared_foreign ascii_unicode
                    (world_of (Ok page_french))
                    article_url source_label initial_state
                    page_french eq_refl eq_refl) (lit "fr"));
      [reflexivity|discriminate|reflexivity].
  - split; [reflexivity|].
    apply (proj2 (@language_gate_skips_only_declared_foreign ascii_unicode
                    (world_of (Ok page_no_lang))
                    article_url source_label initial_state
                    page_no_lang eq_refl eq_refl));
      [left; reflexivity|discriminate].
Defined.

(** C5, amended, at the listing of ten links with the cap 2. *)
Lemma cap_links_bounded_when_nonnegative_witness :
  classify_links healthline ten_links = Ok (three_links, []) /\
  is_list_of_set three_links (dedup three_links) = true /\
  (0 <= 2)%Z /\
  NoDup (cap_links dedup three_links 2) /\
  (Z.of_nat (length (cap_links dedup three_links 2)) <= 2)%Z /\
  Z.of_nat (length (cap_links dedup three_links 2)) = Z.min 3 2.
Proof.
  split; [reflexivity|]. split; [reflexivity|]. split; [lia|].
  destruct (@cap_links_bounded_when_nonnegative ascii_unicode
              healthline ten_links three_links [] dedup 2%Z
              eq_refl eq_refl) as [H1 [H2 H3]]; [lia|].
  split; [exact H1|]. split; [exact H2|].
  apply H3; try reflexivity.
  repeat constructor; simpl; intuition discriminate.
Defined.



(** C10 at the three accepted links: the cap -1 leaves two of them, more
    than one; the cap 0 makes the run skip the source. *)
Lemma cap_zero_skips_and_negative_drops_last_witness :
  (0 < 1 /\ 2 * 1 < length (dedup three_links) /\
   1 < length (cap_links dedup three_links (- Z.of_nat 1))) /\
  process_source (W:=world_run) 0 (lit "20240101_120000") healthline
    initial_state =
  (Ok tt,
   after_request initial_state
     [(INFO, FetchingFrom (name healthline) (url healthline));
      (WARNING, NoValidLinks (name healthline) (firstn 5 []))]).
Proof.
  destruct (@cap_zero_skips_and_negative_drops_last ascii_unicode world_run
              dedup three_links) as [_ [H2 H3]].
  split.
  - split; [lia|]. split; [simpl; lia|].
    apply (H3 1); [lia|simpl; lia].
  - apply (H2 healthline (lit "20240101_120000") initial_state listing_page
              three_links []); reflexivity.
Defined.

End Witnesses.

(* ================================================================== *)
(** * Article extractor: further properties *)

Section ExtractorMore.
Context {U : Unicode} {W : World}.

Lemma element_of_ok (elem : node) :
  Forall (fun e => element_ok e = true /\
                   Forall (fun c => text_char c = true) (element_text e))
         (element_of elem).
Proof.
  unfold element_of. destruct (tag_name elem) as [nm|]; [|constructor].
  destruct (str_eqb nm (lit "h2") || str_eqb nm (lit "h3")) eqn:Eh.
  - destruct (negb _ && (10 <? _)) eqn:E; [|constructor].
    apply andb_true_iff in E. destruct E as [_ E].
    constructor; [|constructor]. split.
    + unfold element_ok. now rewrite Eh, E.
    + apply clean_text_chars.
  - destruct (str_eqb nm (lit "p")).
    + destruct (negb _ && (20 <? _)) eqn:E; [|constructor].
      apply andb_true_iff in E. destruct E as [_ E].
      constructor; [|constructor]. split; [exact E|apply clean_text_chars].
    + destruct (str_eqb nm (lit "blockquote")); [|constructor].
      destruct (negb _ && (20 <? _)) eqn:E; [|constructor].
      apply andb_true_iff in E. destruct E as [_ E].
      constructor; [|constructor]. split; [exact E|apply clean_text_chars].
Qed.

Lemma walk_ok (soup : node) :
  Forall (fun e => element_ok e = true /\
                   Forall (fun c => text_char c = true) (element_text e))
         (walk soup).
Proof.
  unfold walk.
  induction (find_all (find_content soup) _) as [|x l IH]; simpl.
  - constructor.
  - apply Forall_app. split; [apply element_of_ok|exact IH].
Qed.

(** What [scrape_outcome] gives: a clean title, and no element or at
    least two, each over its threshold. *)
Lemma scrape_outcome_shape (u : str) (o : result node) :
  Forall (fun c => text_char c = true) (fst (fst (scrape_outcome u o))) /\
  (snd (fst (scrape_outcome u o)) = [] \/
   2 <= length (snd (fst (scrape_outcome u o)))) /\
  Forall (fun e => element_ok e = true /\
                   Forall (fun c => text_char c = true) (element_text e))
         (snd (fst (scrape_outcome u o))).
Proof.
  unfold scrape_outcome.
  destruct o as [soup|e];
    [|simpl; repeat split; auto using No_Title_chars].
  destruct (read_lang soup) as [lang|e];
    [|simpl; repeat split; auto using No_Title_chars].
  destruct (language_gate lang);
    [simpl; repeat split; auto using No_Title_chars|].
  destruct (length (walk soup) <? 2) eqn:E; simpl.
  - repeat split; auto using extract_title_chars.
  - apply Nat.ltb_ge in E.
    repeat split; auto using extract_title_chars, walk_ok.
Qed.


(** X6: for a page that was fetched and parsed, the skip for a foreign
    language is logged exactly when the root element declares a
    non-empty language whose lowered form does not start with ["en"]; so
    ["EN-us"] and ["en"] pass, as do an absent or empty attribute and a
    page without root element. *)
Theorem language_gate_exact
    (u src_name : str) (st : run_state) (soup : node) :
  can_print u = true ->
  http_get (requests st) u = Ok soup ->
  exists entries,
    log (snd (scrape_article u src_name st)) = log st ++ entries /\
    (In (WARNING, SkippingNonEnglish u) entries <->
     exists lang,
       declared_lang soup = Some lang /\ lang <> [] /\
       startswith (lower lang) (lit "en") = false).
Proof.
  intros Hu Hget. rewrite scrape_article_run by assumption. simpl.
  eexists. split; [reflexivity|].
  rewrite Hget. unfold scrape_outcome. rewrite declared_lang_read.
  unfold declared_lang.
  destruct (find soup (lit "html")) as [html|].
  - set (attr := get (tag_attrs html) (lit "lang")).
    destruct (language_gate (lower match attr with
                                   | Some v => v
                                   | None => []
                                   end)) eqn:G.
    + split; [intros _|intros _; simpl; auto].
      unfold language_gate in G. apply andb_true_iff in G.
      destruct G as [G1 G2]. apply negb_true_iff in G1, G2.
      destruct attr as [lang|].
      * exists lang. repeat split; auto.
        intros ->. rewrite lower_nil in G1. discriminate.
      * rewrite lower_nil in G1. discriminate.
    + split.
      * destruct (length (walk soup) <? 2); simpl;
          intros [H|[H|[]]]; discriminate.
      * intros [lang [Hl [Hne Hen]]]. rewrite Hl in G.
        rewrite (language_gate_non_english lang Hne Hen) in G.
        discriminate.
  - split.
    + simpl. intros [H|[H|[]]]; discriminate.
    + intros [lang [Hl _]]. discriminate.
Qed.

(** X7: [scrape_article] asks at most once, and its articles, index
    and save calls are as before.  With an address that can be printed
    the run has made exactly one more request and has two more log
    lines, the first of them the announcement of the scrape, whatever
    the outcome; with an address the console cannot encode the call
    raises at its first [print], after the announcement in the log and
    before any request. *)
Theorem scrape_article_at_most_one_request
    (u src_name : str) (st : run_state) :
  (can_print u = true ->
     requests (snd (scrape_article u src_name st)) = S (requests st) /\
     exists lvl ev,
       log (snd (scrape_article u src_name st)) =
       log st ++ [(INFO, ScrapingArticle u); (lvl, ev)]) /\
  (can_print u = false ->
     fst (scrape_article u src_name st) = Raise UnicodeEncodeError /\
     requests (snd (scrape_article u src_name st)) = requests st /\
     log (snd (scrape_article u src_name st)) =
       log st ++ [(INFO, ScrapingArticle u)]) /\
  all_articles (snd (scrape_article u src_name st)) = all_articles st /\
  idx (snd (scrape_article u src_name st)) = idx st /\
  saves (snd (scrape_article u src_name st)) = saves st.
Proof.
  split; [|split].
  - intros Hu. rewrite scrape_article_run by assumption. simpl.
    split; [reflexivity|].
    unfold scrape_outcome.
    destruct (http_get (requests st) u) as [soup|e]; [|simpl; eauto].
    destruct (read_lang soup) as [lang|e]; [|simpl; eauto].
    destruct (language_gate lang); [simpl; eauto|].
    destruct (length (walk soup) <? 2); simpl; eauto.
  - intros Hu. rewrite scrape_article_unprintable by assumption.
    simpl. auto.
  - destruct (can_print u) eqn:Hu.
    + rewrite scrape_article_run by assumption. simpl. auto.
    + rewrite scrape_article_unprintable by assumption. simpl. auto.
Qed.

End ExtractorMore.

(* ================================================================== *)
(** * Link classifier: further properties *)

Section ClassifierMore.
Context {U : Unicode}.

Lemma classify_links_rejects (src : source) (hrefs : list str) :
  forall links rejected,
    classify_links src hrefs = Ok (links, rejected) ->
    rejected = filter (rejects src) (resolved src hrefs).
Proof.
  induction hrefs as [|h hrefs IH]; simpl; intros links rejected H.
  - now inversion H.
  - destruct (urljoin (url src) h) as [href|e]; [|discriminate].
    rewrite filter_app. simpl. unfold rejects at 1.
    destruct (passes_filter src href) as [pass|e]; [|discriminate].
    destruct (classify_links src hrefs) as [[al rl]|e]; [|discriminate].
    specialize (IH al rl eq_refl).
    destruct pass; [destruct (allow_rule src href)|];
      inversion H; subst; reflexivity.
Qed.

Lemma blocklisted_false (href : str) :
  blocklisted href = false ->
  Forall (fun exclude => str_in exclude (lower href) = false) blocklist.
Proof.
  unfold blocklisted. intros H. apply Forall_forall. intros ex Hex.
  destruct (str_in ex (lower href)) eqn:E; auto.
  assert (Ht : existsb (fun exclude => str_in exclude (lower href))
                       blocklist = true)
    by (apply existsb_exists; eauto).
  congruence.
Qed.

(** X8: every link the classifier accepts starts with ["http"] and
    holds, once lowered, none of the substrings of the blocklist. *)
Theorem accepted_links_off_blocklist
    (src : source) (hrefs links rejected : list str) (u : str) :
  classify_links src hrefs = Ok (links, rejected) ->
  In u links ->
  startswith u (lit "http") = true /\
  Forall (fun exclude => str_in exclude (lower u) = false) blocklist.
Proof.
  intros Hc Hin.
  rewrite (classify_links_accepts src hrefs links rejected Hc) in Hin.
  apply filter_In in Hin. destruct Hin as [_ Hacc].
  destruct (accepts_host src u Hacc) as [host [_ [H2 [_ [H4 _]]]]].
  split; [exact H2|now apply blocklisted_false].
Qed.

(** X9: the override of a source decides for that source: an accepted
    BBC Health link holds ["health-"] and at least 4 slashes, an accepted
    WebMD link holds ["/news/"] and at least 5 slashes, an accepted
    Guardian link holds ["/article/"] or ["/202"]; under every other
    name an accepted link holds one of ["article"], ["news/"],
    ["story"], ["202"]. *)
Theorem accepted_links_follow_source_rule
    (src : source) (hrefs links rejected : list str) (u : str) :
  classify_links src hrefs = Ok (links, rejected) ->
  In u links ->
  (name src = lit "BBC Health" ->
     str_in (lit "health-") (lower u) = true /\ 4 <= count_char u 47) /\
  (name src = lit "WebMD" ->
     str_in (lit "/news/") (lower u) = true /\ 5 <= count_char u 47) /\
  (name src = lit "The Guardian Health" ->
     str_in (lit "/article/") (lower u) = true \/
     str_in (lit "/202") (lower u) = true) /\
  (uses_default_rule src = true ->
     exists indicator,
       In indicator [lit "article"; lit "news/"; lit "story"; lit "202"] /\
       str_in indicator (lower u) = true).
Proof.
  intros Hc Hin.
  rewrite (classify_links_accepts src hrefs links rejected Hc) in Hin.
  apply filter_In in Hin. destruct Hin as [_ Hacc].
  destruct (accepts_host src u Hacc) as [host [_ [_ [_ [_ Hrule]]]]].
  unfold allow_rule, uses_default_rule in *.
  split; [|split; [|split]].
  - intros E. rewrite E in Hrule. simpl in Hrule.
    apply andb_true_iff in Hrule. destruct Hrule as [H1 H2].
    split; [exact H1|now apply Nat.leb_le].
  - intros E. rewrite E in Hrule. simpl in Hrule.
    apply andb_true_iff in Hrule. destruct Hrule as [H1 H2].
    split; [exact H1|now apply Nat.leb_le].
  - intros E. rewrite E in Hrule. simpl in Hrule.
    now apply orb_true_iff in Hrule.
  - intros E. apply andb_true_iff in E. destruct E as [E E3].
    apply andb_true_iff in E. destruct E as [E1 E2].
    apply negb_true_iff in E1, E2, E3.
    rewrite E1, E2, E3 in Hrule.
    apply existsb_exists in Hrule. exact Hrule.
Qed.

Lemma filter_disjoint_length {A} (f g : A -> bool) (l : list A) :
  (forall x, f x = true -> g x = false) ->
  length (filter f l) + length (filter g l) <= length l.
Proof.
  intros H. induction l as [|x l IH]; simpl; auto.
  destruct (f x) eqn:Ef.
  - rewrite (H x Ef). simpl. lia.
  - destruct (g x); simpl; lia.
Qed.

Lemma accepts_not_rejects (src : source) (href : str) :
  accepts src href = true -> rejects src href = false.
Proof.
  unfold accepts, rejects.
  destruct (passes_filter src href) as [[|]|]; auto.
  now intros ->.
Qed.

(** X10: the two lists of the classifier share no link and together
    hold at most as many links as the page has hrefs; a rejected link is
    one that passed the outer filter and failed the rule of the
    source. *)
Theorem accepted_and_rejected_apart
    (src : source) (hrefs links rejected : list str) :
  classify_links src hrefs = Ok (links, rejected) ->
  (forall u, In u links -> ~ In u rejected) /\
  length links + length rejected <= length hrefs /\
  (forall u, In u rejected ->
     passes_filter src u = Ok true /\ allow_rule src u = false).
Proof.
  intros Hc.
  rewrite (classify_links_accepts src hrefs links rejected Hc).
  rewrite (classify_links_rejects src hrefs links rejected Hc).
  split; [|split].
  - intros u Hin Hr. apply filter_In in Hin, Hr.
    destruct Hin as [_ Ha]. destruct Hr as [_ Hr].
    rewrite (accepts_not_rejects src u Ha) in Hr. discriminate.
  - rewrite <- (classify_links_resolves src hrefs links rejected Hc).
    apply filter_disjoint_length, accepts_not_rejects.
  - intros u H. apply filter_In in H. destruct H as [_ H].
    unfold rejects in H.
    destruct (passes_filter src u) as [[|]|]; try discriminate.
    split; [reflexivity|now apply negb_true_iff].
Qed.

Lemma listing_host_raises (u : str) (e : exn) :
  listing_host u = Raise e -> e = IndexError.
Proof.
  unfold listing_host.
  destruct (nth_error _ 1) as [rest|]; [|now intros [= <-]].
  destruct (split rest (lit "/")); [now intros [= <-]|discriminate].
Qed.

(** With a host to cut out of the address of the source and hrefs that
    all resolve, the loop over the anchors runs to its end. *)
Lemma classify_links_total (src : source) (host : str) (hrefs : list str) :
  listing_host (url src) = Ok host ->
  Forall (fun h => exists href, urljoin (url src) h = Ok href) hrefs ->
  exists links rejected, classify_links src hrefs = Ok (links, rejected).
Proof.
  intros Eh Hall.
  induction Hall as [|h hrefs [href Hh] _ [al [rl IH]]]; simpl; eauto.
  rewrite Hh. unfold passes_filter. rewrite Eh, IH.
  destruct (startswith _ _); [|eauto].
  destruct (_ && _); [destruct (allow_rule _ _)|]; eauto.
Qed.

Lemma passes_filter_raises (src : source) (href : str) (e : exn) :
  passes_filter src href = Raise e <->
  startswith href (lit "http") = true /\ listing_host (url src) = Raise e.
Proof.
  unfold passes_filter.
  destruct (startswith href (lit "http")).
  - destruct (listing_host (url src)) as [host|e0].
    + split; [discriminate|intros [_ H]; discriminate].
    + split; [intros [= ->]; auto|intros [_ [= ->]]; reflexivity].
  - split; [discriminate|intros [H _]; discriminate].
Qed.

Lemma href_raises_spec (src : source) (h : str) (e : exn) :
  href_raises src h = Some e <->
  urljoin (url src) h = Raise e \/
  exists href,
    urljoin (url src) h = Ok href /\
    startswith href (lit "http") = true /\
    listing_host (url src) = Raise e.
Proof.
  unfold href_raises.
  destruct (urljoin (url src) h) as [href|e0].
  - destruct (passes_filter src href) as [pass|e0] eqn:Ep.
    + split; [discriminate|].
      intros [H|[href' [[= <-] H]]]; [discriminate|].
      apply passes_filter_raises in H. congruence.
    + split.
      * intros [= ->]. right. exists href. split; [reflexivity|].
        now apply passes_filter_raises.
      * intros [H|[href' [[= <-] H]]]; [discriminate|].
        apply passes_filter_raises in H. congruence.
  - split.
    + intros [= ->]. now left.
    + intros [[= ->]|[href [H _]]]; [reflexivity|discriminate].
Qed.

Lemma classify_links_raises_here (src : source) (h : str)
    (hrefs : list str) (e : exn) :
  href_raises src h = Some e -> classify_links src (h :: hrefs) = Raise e.
Proof.
  unfold href_raises. cbn [classify_links].
  destruct (urljoin (url src) h) as [href|e1]; [|congruence].
  destruct (passes_filter src href) as [pass|e1]; congruence.
Qed.

Lemma classify_links_raises_later (src : source) (h : str)
    (hrefs : list str) (e : exn) :
  href_raises src h = None ->
  (classify_links src (h :: hrefs) = Raise e <->
   classify_links src hrefs = Raise e).
Proof.
  unfold href_raises. cbn [classify_links].
  destruct (urljoin (url src) h) as [href|e1]; [|discriminate].
  destruct (passes_filter src href) as [pass|e1]; [|discriminate].
  intros _.
  destruct (classify_links src hrefs) as [[al rl]|e1]; [|tauto].
  destruct pass; [destruct (allow_rule src href)|]; split; discriminate.
Qed.

(** The loop raises what the first href that raises makes it raise. *)
Lemma classify_links_first_raise (src : source) (hrefs : list str)
    (e : exn) :
  classify_links src hrefs = Raise e <->
  exists before h after,
    hrefs = before ++ h :: after /\
    Forall (fun h' => href_raises src h' = None) before /\
    href_raises src h = Some e.
Proof.
  induction hrefs as [|h0 hrefs IH].
  - split; [discriminate|].
    intros [[|x before] [h [after [H _]]]]; discriminate.
  - destruct (href_raises src h0) as [e0|] eqn:E0.
    + rewrite (classify_links_raises_here src h0 hrefs e0 E0). split.
      * intros [= ->]. exists [], h0, hrefs.
        split; [reflexivity|split; [constructor|exact E0]].
      * intros [[|x before] [h [after [H [Hq Hr]]]]].
        -- injection H as <- _. congruence.
        -- injection H as <- _. inversion Hq; congruence.
    + rewrite (classify_links_raises_later src h0 hrefs e E0), IH. split.
      * intros [before [h [after [-> [Hq Hr]]]]].
        exists (h0 :: before), h, after.
        split; [reflexivity|split; [now constructor|exact Hr]].
      * intros [[|x before] [h [after [H [Hq Hr]]]]].
        -- injection H as <- _. congruence.
        -- injection H as <- ->. inversion Hq; subst.
           exists before, h, after. auto.
Qed.

(** Among hrefs of which one raises there is a first that does. *)
Lemma first_raise_exists (src : source) (hrefs : list str) :
  forall h e, In h hrefs -> href_raises src h = Some e ->
  exists before h' after e',
    hrefs = before ++ h' :: after /\
    Forall (fun x => href_raises src x = None) before /\
    href_raises src h' = Some e'.
Proof.
  induction hrefs as [|h0 hrefs IH]; intros h e Hin Hr; [contradiction|].
  destruct (href_raises src h0) as [e0|] eqn:E0.
  - exists [], h0, hrefs, e0.
    split; [reflexivity|split; [constructor|exact E0]].
  - destruct Hin as [->|Hin]; [congruence|].
    destruct (IH h e Hin Hr) as [before [h' [after [e' [-> [Hq Hr']]]]]].
    exists (h0 :: before), h', after, e'.
    split; [reflexivity|split; [now constructor|exact Hr']].
Qed.

(** X11: the classification of a listing raises exactly when one of the
    hrefs of the page makes it raise, and it raises what the first such
    href does: the exception of its resolution, or else -- the href
    resolves to something that starts with ["http"] and the address of
    the source has no host part to cut out -- the exception of that cut,
    an [IndexError].  So with hrefs that all resolve it raises exactly
    when the address of the source has no host part and at least one
    href resolves to something that starts with ["http"], and with such
    hrefs and a host part it returns. *)
Theorem classify_links_raises_iff
    (src : source) (hrefs : list str) (e : exn) :
  (classify_links src hrefs = Raise e <->
   exists before h after,
     hrefs = before ++ h :: after /\
     Forall (fun h' => href_raises src h' = None) before /\
     (urljoin (url src) h = Raise e \/
      exists href,
        urljoin (url src) h = Ok href /\
        startswith href (lit "http") = true /\
        listing_host (url src) = Raise e)) /\
  (forall e', listing_host (url src) = Raise e' -> e' = IndexError) /\
  (Forall (fun h => exists href, urljoin (url src) h = Ok href) hrefs ->
     (classify_links src hrefs = Raise e <->
      listing_host (url src) = Raise e /\
      existsb (fun href => startswith href (lit "http"))
              (resolved src hrefs) = true) /\
     (forall host, listing_host (url src) = Ok host ->
        exists links rejected,
          classify_links src hrefs = Ok (links, rejected))).
Proof.
  split; [|split].
  - rewrite classify_links_first_raise. split.
    + intros [before [h [after [H [Hq Hr]]]]].
      exists before, h, after. split; [exact H|split; [exact Hq|]].
      now apply href_raises_spec.
    + intros [before [h [after [H [Hq Hr]]]]].
      exists before, h, after. split; [exact H|split; [exact Hq|]].
      now apply href_raises_spec.
  - intros e'. apply listing_host_raises.
  - intros Hall.
    assert (Hsome : forall h e', In h hrefs ->
              href_raises src h = Some e' ->
              listing_host (url src) = Raise e' /\
              exists href, In href (resolved src hrefs) /\
                           startswith href (lit "http") = true).
    { intros h e' Hin Hr. apply href_raises_spec in Hr.
      rewrite Forall_forall in Hall. destruct (Hall h Hin) as [href Hh].
      destruct Hr as [Hr|[href' [Hh' [Hs He]]]]; [congruence|].
      split; [exact He|]. exists href'. split; [|exact Hs].
      apply resolved_In. eauto. }
    split.
    + rewrite classify_links_first_raise. split.
      * intros [before [h [after [-> [Hq Hr]]]]].
        destruct (Hsome h e) as [He [href [Hin Hs]]];
          [apply in_or_app; right; now left|exact Hr|].
        split; [exact He|]. apply existsb_exists. eauto.
      * intros [He Hex]. apply existsb_exists in Hex.
        destruct Hex as [href [Hin Hs]].
        apply resolved_In in Hin. destruct Hin as [h [Hin Hh]].
        assert (Hr : href_raises src h = Some e)
          by (apply href_raises_spec; right; eauto).
        destruct (first_raise_exists src hrefs h e Hin Hr)
          as [before [h' [after [e' [Heq [Hq Hr']]]]]].
        exists before, h', after. split; [exact Heq|split; [exact Hq|]].
        destruct (Hsome h' e') as [He' _];
          [rewrite Heq; apply in_or_app; right; now left|exact Hr'|].
        congruence.
    + intros host Eh. now apply (classify_links_total src host).
Qed.

Lemma In_firstn_keep {A} (n : nat) (l : list A) (x : A) :
  In x (firstn n l) -> In x l.
Proof.
  intros H. rewrite <- (firstn_skipn n l). apply in_or_app. now left.
Qed.

(** X12: whatever the cap, negative ones included, the candidates of a
    source are pairwise distinct and each of them is an accepted
    link. *)
Theorem cap_links_distinct_accepted
    (order : list str -> list str) (links : list str) (max : Z) :
  is_list_of_set links (order links) = true ->
  NoDup (cap_links order links max) /\
  incl (cap_links order links max) links.
Proof.
  intros Hset.
  destruct (is_list_of_set_sound _ _ Hset) as [Hnd [Hin _]].
  unfold cap_links, slice_to.
  split.
  - destruct (0 <=? max)%Z; now apply NoDup_firstn_keep.
  - intros x Hx. apply Hin.
    destruct (0 <=? max)%Z; eapply In_firstn_keep; exact Hx.
Qed.

End ClassifierMore.

(* ================================================================== *)
(** * Run orchestrator and writer: further properties *)

Section RunMore.
Context {U : Unicode} {W : World}.

Lemma preserves_for_each_In {A} (P : run_state -> Prop)
    (l : list A) (body : A -> M unit) :
  (forall x, In x l -> preserves P (body x)) -> preserves P (for_each l body).
Proof.
  induction l as [|x l IH]; intros Hb; simpl.
  - intros st HP. exact HP.
  - apply preserves_bind.
    + apply Hb. now left.
    + intros _. apply IH. intros y Hy. apply Hb. now right.
Qed.

Lemma books_process_link (ts : str) (known : str -> Prop)
    (src : source) (link : str) :
  can_print ts = true ->
  known (name src) ->
  preserves (books_invariant ts known) (process_link src ts link).
Proof.
  intros Hts Hk st Hinv.
  destruct (can_print link) eqn:Hl;
    [|now rewrite process_link_unprintable by assumption].
  destruct (process_link src ts link st) as [r st1] eqn:E.
  unfold process_link in E.
  rewrite bind_print_ok in E by printable.
  unfold bind at 1 in E. rewrite scrape_article_run in E by assumption.
  pose proof (scrape_outcome_shape link (http_get (requests st) link))
    as [Ht [Hn He]].
  destruct (fst (scrape_outcome link (http_get (requests st) link)))
    as [title [|x elements]].
  - rewrite bind_logging, print_line_ok in E by printable.
    injection E as <- <-. destruct Hinv. split; assumption.
  - cbn [fst snd] in Ht, Hn, He.
    destruct Hn as [Hn|Hn]; [discriminate|].
    unfold bind, append_article, read_idx, incr_idx in E.
    match type of E with
    | context [save_article ?a ?b ?c ?d ?e ?f ?s] =>
        pose proof (save_article_ok a b c d e f s (name_can_print src) Hts)
          as Hok;
        pose proof (save_article_effect a b c d e f s)
          as ([w Hs] & Ha & _ & _);
        destruct (save_article a b c d e f s) as [[[]|e'] st']
    end; [|discriminate].
    injection E as <- <-. destruct Hinv as [Hpairs Hall].
    unfold after_request in *.
    cbn [fst snd all_articles idx requests saves log] in *.
    split; cbn [fst snd all_articles idx requests saves log];
      rewrite Ha, ?Hs.
    + apply Forall2_app; [assumption|].
      constructor; [|constructor].
      repeat split; eexists; reflexivity.
    + apply Forall_app; split; [assumption|].
      constructor; [|constructor].
      repeat split; assumption.
Qed.

Lemma books_process_source (max : Z) (ts : str) (known : str -> Prop)
    (src : source) :
  can_print ts = true ->
  known (name src) ->
  preserves (books_invariant ts known) (process_source max ts src).
Proof.
  intros Hts Hk. unfold process_source, process_source_try.
  apply preserves_bind; [intros st H; exact H|intros _].
  apply preserves_bind; [apply preserves_print|intros _].
  apply preserves_try_except;
    [|intros e; apply preserves_bind;
      [intros st H; exact H|intros _; apply preserves_print]].
  apply preserves_bind; [intros st H; exact H|intros soup].
  apply preserves_bind; [intros st H; exact H|intros [al rl]].
  destruct (cap_links set_order al max);
    [apply preserves_bind;
     [intros st H; exact H|intros _; apply preserves_print]|].
  apply preserves_for_each. intros x. now apply books_process_link.
Qed.




Lemma books_invariant_end (sources : list source) (max : Z) :
  books_invariant run_timestamp (fun n => In n (map name sources))
    (snd (fetch_from sources max)).
Proof.
  unfold fetch_from.
  assert (H : books_invariant run_timestamp
                (fun n => In n (map name sources))
                (snd (for_each sources (process_source max run_timestamp)
                               initial_state))).
  { apply preserves_for_each_In.
    - intros x Hx. apply books_process_source;
        [apply timestamp_can_print|now apply in_map].
    - split; constructor. }
  destruct (for_each sources _ initial_state) as [[[]|e] st]; exact H.
Qed.


(** X14: every article a run returns comes from one of its sources, has
    a cleaned title and at least two elements, each an [h2] or [h3]
    heading of more than 10 characters or a paragraph or quote of more
    than 20. *)
Theorem run_articles_well_formed (sources : list source) (max : Z) :
  Forall (article_ok (fun n => In n (map name sources)))
         (all_articles (snd (fetch_from sources max))).
Proof. apply (books_invariant_end sources max). Qed.






End RunMore.

Section WriterMore.
Context {U : Unicode} {W : World}.

Lemma count_char_app (a b : str) (c : N) :
  count_char (a ++ b) c = count_char a c + count_char b c.
Proof. unfold count_char. now rewrite filter_app, length_app. Qed.

Lemma count_char_zero (t : str) (c : N) :
  Forall (fun x => (c =? x)%N = false) t -> count_char t c = 0.
Proof.
  unfold count_char. induction 1 as [|x l Hx Hl IH]; simpl; auto.
  now rewrite Hx.
Qed.

Lemma text_char_no_newline (t : str) :
  Forall (fun c => text_char c = true) t -> count_char t 10 = 0.
Proof.
  intros H. apply count_char_zero. eapply Forall_impl; [|exact H].
  intros c Hc. destruct (N.eqb_spec 10 c) as [<-|]; [discriminate|reflexivity].
Qed.

Lemma render_element_lines (e : ContentElement) :
  Forall (fun c => text_char c = true) (element_text e) ->
  count_char (render_element e) 10 = 2.
Proof.
  intros H. apply text_char_no_newline in H.
  destruct e as [lvl text|text|text]; unfold render_element;
    cbn [element_text] in H; rewrite !count_char_app, H;
    try destruct (str_eqb lvl (lit "h2")); reflexivity.
Qed.

(** X18: with cleaned texts, the file of an article has one line for
    each of the four header fields, an empty line, and then for every
    element one line and one empty line: [5 + 2 n] line breaks for [n]
    elements, when the source name, the address and the date hold
    none. *)
Theorem text_content_line_count
    (title : str) (elements : list ContentElement)
    (source_name u date : str) :
  Forall (fun c => text_char c = true) title ->
  Forall (fun e => Forall (fun c => text_char c = true) (element_text e))
         elements ->
  count_char source_name 10 = 0 ->
  count_char u 10 = 0 ->
  count_char date 10 = 0 ->
  count_char (text_content title elements source_name u date) 10 =
    5 + 2 * length elements.
Proof.
  intros Ht He Hs Hu Hd. unfold text_content.
  rewrite !count_char_app, Hs, Hu, Hd, (text_char_no_newline title Ht).
  assert (Hel : count_char (flat_map render_element elements) 10 =
                2 * length elements).
  { induction He as [|e l Hx Hl IH]; [reflexivity|].
    cbn [flat_map length]. rewrite count_char_app, IH.
    rewrite (render_element_lines e Hx). lia. }
  rewrite Hel. reflexivity.
Qed.

Lemma filename_char_plain (c : N) :
  filename_char c = true -> plain_char c = true.
Proof.
  intros H. pose proof (filename_char_ascii c H) as Hc.
  assert (Hall : (negb (filename_char c) || plain_char c) = true).
  { apply (ascii_range_check
             (fun c => negb (filename_char c) || plain_char c));
      [vm_compute; reflexivity|exact Hc]. }
  now rewrite H in Hall.
Qed.

Lemma clean_filename_plain (title : str) :
  forallb plain_char (clean_filename title) = true.
Proof.
  apply forallb_forall. intros c Hc. apply filename_char_plain.
  pose proof (clean_filename_chars title) as H.
  rewrite Forall_forall in H. now apply H.
Qed.

Lemma str_of_nat_plain (n : nat) : forallb plain_char (str_of_nat n) = true.
Proof.
  apply forallb_forall. intros c Hc. apply is_digit_plain.
  pose proof (str_of_nat_digits n) as H.
  rewrite Forall_forall in H. now apply H.
Qed.

(** X19: a title never moves the file: when the source name and the
    timestamp hold no slash, no backslash and no colon, the name
    composed for the file holds none either, and the path written to is
    [DESKTOP_PATH], one separator -- the slash or the backslash of the
    platform -- and that name. *)
Theorem txt_filename_in_directory
    (title source_name ts : str) (i : nat) :
  forallb plain_char source_name = true ->
  forallb plain_char ts = true ->
  forallb plain_char (base_name title source_name ts i) = true /\
  exists sep,
    (sep = 47%N \/ sep = 92%N) /\
    txt_filename title source_name ts i =
    DESKTOP_PATH ++ sep :: base_name title source_name ts i.
Proof.
  intros Hs Ht.
  assert (Hb : forallb plain_char (base_name title source_name ts i) = true).
  { unfold base_name.
    rewrite !forallb_app, Hs, Ht, clean_filename_plain, str_of_nat_plain.
    reflexivity. }
  split; [exact Hb|].
  unfold txt_filename. fold (base_name title source_name ts i).
  now apply os_path_join_plain.
Qed.

End WriterMore.
(* ================================================================== *)
(** * The console and the per-link loop *)

Section ConsoleLoop.
Context {U : Unicode} {W : World}.


End ConsoleLoop.

(* ================================================================== *)
(** * The further statements at concrete inputs *)

Section MoreWitnesses.
Import Examples MoreExamples.
#[local] Existing Instance ascii_unicode.

Lemma clean_filename_idempotent_witness :
  normalize_NFKD (clean_filename (lit " Test,  Article!! ")) =
    clean_filename (lit " Test,  Article!! ") /\
  clean_filename (lit " Test,  Article!! ") = lit "Test_Article" /\
  clean_filename (clean_filename (lit " Test,  Article!! ")) =
    clean_filename (lit " Test,  Article!! ").
Proof.
  split; [reflexivity|]. split; [reflexivity|].
  apply (clean_filename_idempotent (lit " Test,  Article!! ")).
  reflexivity.
Defined.

Lemma clean_text_idempotent_witness :
  clean_text (Some (lit "  Hello,   world! ")) true = lit "Hello, world!" /\
  clean_text (Some (clean_text (Some (lit "  Hello,   world! ")) true)) false
    = clean_text (Some (lit "  Hello,   world! ")) true.
Proof.
  split; [reflexivity|].
  apply (clean_text_idempotent (Some (lit "  Hello,   world! ")) true false).
  reflexivity.
Defined.


Lemma language_gate_exact_witness :
  can_print (W:=world_of (Ok page_french)) article_url = true /\
  declared_lang page_french = Some (lit "fr") /\
  exists entries,
    log (snd (scrape_article (W:=world_of (Ok page_french))
                article_url source_label initial_state))
      = log initial_state ++ entries /\
    (In (WARNING, SkippingNonEnglish article_url) entries <->
     exists lang,
       declared_lang page_french = Some lang /\ lang <> [] /\
       startswith (lower lang) (lit "en") = false).
Proof.
  split; [reflexivity|]. split; [reflexivity|].
  apply (@language_gate_exact ascii_unicode (world_of (Ok page_french))
           article_url source_label initial_state page_french);
    reflexivity.
Defined.

Lemma scrape_article_at_most_one_request_witness :
  can_print (W:=world_of (Ok page_two)) article_url = true /\
  requests (snd (scrape_article (W:=world_of (Ok page_two))
                   article_url source_label initial_state)) = 1 /\
  can_print (W:=ascii_world_of (Ok page_two)) accented_url = false /\
  fst (scrape_article (W:=ascii_world_of (Ok page_two))
         accented_url source_label initial_state)
    = Raise UnicodeEncodeError /\
  requests (snd (scrape_article (W:=ascii_world_of (Ok page_two))
                   accented_url source_label initial_state)) = 0.
Proof.
  split; [reflexivity|]. split; [|split; [reflexivity|]].
  - apply (proj1 (@scrape_article_at_most_one_request ascii_unicode
                    (world_of (Ok page_two))
                    article_url source_label initial_state)).
    reflexivity.
  - destruct (proj1 (proj2 (@scrape_article_at_most_one_request
                              ascii_unicode (ascii_world_of (Ok page_two))
                              accented_url source_label initial_state))
                    eq_refl) as [H1 [H2 _]].
    split; [exact H1|exact H2].
Defined.

Lemma accepted_links_off_blocklist_witness :
  classify_links healthline ten_links = Ok (three_links, []) /\
  startswith article_url (lit "http") = true /\
  Forall (fun exclude => str_in exclude (lower article_url) = false)
         blocklist.
Proof.
  split; [reflexivity|].
  apply (accepted_links_off_blocklist
           healthline ten_links three_links [] article_url).
  - reflexivity.
  - left; reflexivity.
Defined.

Lemma accepted_links_follow_source_rule_witness :
  classify_links bbc bbc_links
    = Ok ([lit "https://www.bbc.com/news/health-12345678"],
          [lit "https://www.bbc.com/news/world-12345678";
           lit "https://www.bbc.com/sport"]) /\
  str_in (lit "health-")
         (lower (lit "https://www.bbc.com/news/health-12345678")) = true /\
  4 <= count_char (lit "https://www.bbc.com/news/health-12345678") 47.
Proof.
  split; [reflexivity|].
  destruct (accepted_links_follow_source_rule
              bbc bbc_links
              [lit "https://www.bbc.com/news/health-12345678"]
              [lit "https://www.bbc.com/news/world-12345678";
               lit "https://www.bbc.com/sport"]
              (lit "https://www.bbc.com/news/health-12345678"))
    as [H _]; [reflexivity|left; reflexivity|].
  apply H. reflexivity.
Defined.

Lemma accepted_and_rejected_apart_witness :
  classify_links bbc bbc_links
    = Ok ([lit "https://www.bbc.com/news/health-12345678"],
          [lit "https://www.bbc.com/news/world-12345678";
           lit "https://www.bbc.com/sport"]) /\
  1 + 2 <= length bbc_links /\
  passes_filter bbc (lit "https://www.bbc.com/sport") = Ok true /\
  allow_rule bbc (lit "https://www.bbc.com/sport") = false.
Proof.
  split; [reflexivity|].
  destruct (accepted_and_rejected_apart
              bbc bbc_links
              [lit "https://www.bbc.com/news/health-12345678"]
              [lit "https://www.bbc.com/news/world-12345678";
               lit "https://www.bbc.com/sport"]) as [_ [H2 H3]];
    [reflexivity|].
  split; [exact H2|].
  apply H3. right; left; reflexivity.
Defined.

Lemma classify_links_raises_iff_witness :
  listing_host (url hostless) = Raise IndexError /\
  classify_links hostless
    [lit "mailto:someone@example.org"; lit "https://example.org/news/a-story"]
    = Raise IndexError /\
  classify_links hostless [lit "mailto:someone@example.org"] = Ok ([], []) /\
  urljoin (Unicode:=bracket_unicode) (url healthline) (lit "http://[::1")
    = Raise ValueError /\
  classify_links (U:=bracket_unicode) healthline
    [article_url; lit "http://[::1"; foreign_link] = Raise ValueError.
Proof.
  split; [reflexivity|]. split; [|split; [reflexivity|split;
                                          [reflexivity|]]].
  - apply (proj1 (@classify_links_raises_iff ascii_unicode hostless
                    [lit "mailto:someone@example.org";
                     lit "https://example.org/news/a-story"] IndexError)).
    exists [lit "mailto:someone@example.org"],
           (lit "https://example.org/news/a-story"), [].
    split; [reflexivity|]. split; [repeat constructor|].
    right. exists (lit "https://example.org/news/a-story").
    repeat split; reflexivity.
  - apply (proj1 (@classify_links_raises_iff bracket_unicode healthline
                    [article_url; lit "http://[::1"; foreign_link]
                    ValueError)).
    exists [article_url], (lit "http://[::1"), [foreign_link].
    split; [reflexivity|]. split; [repeat constructor|].
    left. reflexivity.
Defined.

Lemma cap_links_distinct_accepted_witness :
  is_list_of_set three_links (dedup three_links) = true /\
  NoDup (cap_links dedup three_links (-1)) /\
  incl (cap_links dedup three_links (-1)) three_links.
Proof.
  split; [reflexivity|].
  apply (cap_links_distinct_accepted dedup three_links (-1)%Z).
  reflexivity.
Defined.



Lemma text_content_line_count_witness :
  length (walk page_two) = 2 /\
  count_char
    (text_content (extract_title page_two) (walk page_two)
       source_label article_url (lit "2024-01-01 12:00:00")) 10 = 9.
Proof.
  split; [reflexivity|].
  change 9 with (5 + 2 * length (walk page_two)).
  apply (text_content_line_count
           (extract_title page_two) (walk page_two)
           source_label article_url (lit "2024-01-01 12:00:00"));
    try reflexivity.
  - vm_compute. repeat constructor.
  - vm_compute. repeat constructor.
Defined.

Lemma txt_filename_in_directory_witness :
  forallb plain_char source_label = true /\
  forallb plain_char (lit "20240101_120000") = true /\
  txt_filename (W:=world_run) (lit "Risk/benefit: a test") source_label
    (lit "20240101_120000") 7 =
  lit "/home/pharm/Desktop/HealthNewsLinks/" ++
  lit "Healthline_Riskbenefit_a_test_20240101_120000_7.txt" /\
  forallb plain_char (base_name (lit "Risk/benefit: a test") source_label
                        (lit "20240101_120000") 7) = true.
Proof.
  split; [reflexivity|]. split; [reflexivity|]. split; [reflexivity|].
  apply (@txt_filename_in_directory ascii_unicode world_run
           (lit "Risk/benefit: a test") source_label
           (lit "20240101_120000") 7); reflexivity.
Defined.


(** A run of [main] in which one write fails: three articles are
    reported, two files are written. *)
Example main_counts_failed_write :
  fst (main (U:=ascii_unicode) (W:=world_run) 3)
    = Ok (Fetched_and_saved 3) /\
  length (filter call_written
            (saves (snd (main (U:=ascii_unicode) (W:=world_run) 3)))) = 2.
Proof. vm_compute. split; reflexivity. Qed.

End MoreWitnesses.
